(** * generate_dashboard.py: a shallow embedding of the reporting pipeline

    The script reads a table of customer reviews with pandas, derives a
    sentiment label from the rating, computes a fixed set of aggregates and
    writes them, embedded in an HTML template, to one output file.

    The table is modelled as a list of rows in file order, a pandas Series of
    group sizes as an association list ordered by its index, a Python [dict]
    as an association list in insertion order, Python [int] as [Z], Python
    [str] as a list of Unicode code points and Python [float] (IEEE binary64)
    as Rocq's primitive floats.  Python exceptions are modelled with a small
    error monad. *)

From Stdlib Require Import Ascii String.
From Stdlib Require Import ZArith NArith List Bool Lia.
From Stdlib Require Import Sorting.Sorted Sorting.Permutation.
From Stdlib Require Import Floats Uint63.
Import ListNotations.

Local Open Scope Z_scope.

(** ** Python strings *)

Module Str.

(** A Python [str] is a sequence of code points. *)
Definition char := N.
Definition str := list char.

(** An ASCII literal of the source. *)
Definition lit (s : string) : str :=
  map N_of_ascii (list_ascii_of_string s).

Definition len (s : str) : Z := Z.of_nat (length s).

(** [s[:n]] for a non-negative constant [n]. *)
Definition slice_to (n : nat) (s : str) : str := firstn n s.

Definition eqb (s t : str) : bool :=
  if list_eq_dec N.eq_dec s t then true else false.

Fixpoint prefixb (p s : str) : bool :=
  match p, s with
  | [], _ => true
  | _ :: _, [] => false
  | a :: p', b :: s' => N.eqb a b && prefixb p' s'
  end.

(** [m in t] on strings: [m] occurs in [t] as a contiguous substring. *)
Fixpoint contains (t m : str) : bool :=
  prefixb m t ||
  match t with
  | [] => false
  | _ :: t' => contains t' m
  end.

(** Lexicographic order on code points: the order of Python's [<] on
    [str], which [sort_index] uses on the month keys. *)
Fixpoint leb (s t : str) : bool :=
  match s, t with
  | [], _ => true
  | _ :: _, [] => false
  | a :: s', b :: t' => N.ltb a b || (N.eqb a b && leb s' t')
  end.

(** [str(z)] for a Python [int]. *)
Definition digit (d : Z) : char := (48 + Z.to_N d)%N.

Fixpoint digits_fuel (fuel : nat) (z : Z) (acc : str) : str :=
  match fuel with
  | O => acc
  | S fuel' =>
      if z <? 10 then digit z :: acc
      else digits_fuel fuel' (z / 10) (digit (z mod 10) :: acc)
  end.

Definition of_nonneg (z : Z) : str :=
  digits_fuel (S (Z.to_nat (Z.log2 z))) z [].

Definition str_of_int (z : Z) : str :=
  if z <? 0 then 45%N :: of_nonneg (- z) else of_nonneg z.

(** [s.zfill(width)]: zeros are inserted after a leading sign. *)
Definition zfill (width : nat) (s : str) : str :=
  let pad := repeat 48%N (width - length s) in
  match s with
  | c :: s' =>
      if N.eqb c 43 || N.eqb c 45 then c :: pad ++ s' else pad ++ s
  | [] => pad
  end.

End Str.

Import Str.

(** ** The review table *)

(** [str(ts)] of a pandas [Timestamp] at second resolution is
    [YYYY-MM-DD HH:MM:SS]; a row holds the fields that make it up. *)
Record timestamp := {
  ts_year : Z; ts_month : Z; ts_day : Z;
  ts_hour : Z; ts_minute : Z; ts_second : Z
}.

(** One row of [df] after the load step.  [author] is [None] where the
    file has no value (pandas' NaN); [review_date] is [None] for [NaT]. *)
Record review := {
  author : option str;
  rating : Z;
  text : str;
  review_date : option timestamp;
  review_year : Z;
  review_month : Z;
  thumbs_up_count : Z;
  text_length : Z
}.

Definition frame := list review.

(** ** Derived column *)

Inductive sentiment_label := Positive | Neutral | Negative.

Definition sentiment_eqb (a b : sentiment_label) : bool :=
  match a, b with
  | Positive, Positive | Neutral, Neutral | Negative, Negative => true
  | _, _ => false
  end.

(** [lambda r: 'Positive' if r >= 4 else ('Negative' if r <= 2 else 'Neutral')] *)
Definition sentiment_of_rating (r : Z) : sentiment_label :=
  if r >=? 4 then Positive else if r <=? 2 then Negative else Neutral.

(** [df['sentiment']], row by row. *)
Definition sentiment (rv : review) : sentiment_label :=
  sentiment_of_rating (rating rv).

(** ** Exceptions *)

Inductive exn := ZeroDivisionError | ValueError | TypeError | OverflowError.

Inductive result (A : Type) :=
| Ok (a : A)
| Raise (e : exn).

Arguments Ok {A} a.
Arguments Raise {A} e.

Definition bind {A B : Type} (m : result A) (k : A -> result B) : result B :=
  match m with
  | Ok a => k a
  | Raise e => Raise e
  end.

Notation "x <- m ;; k" := (bind m (fun x => k))
  (at level 61, m at next level, right associativity).

(** ** Python and NumPy floats *)

Module PyFloat.

Definition signed_zero (s : bool) : float := if s then neg_zero else zero.

(** [float(z)]: the binary64 nearest to [z], ties to even. *)
Definition float_of_int (z : Z) : float :=
  SF2Prim (binary_normalize prec emax z 0 false).

(** The binary64 nearest to [(-1)^s * k / p], for [0 <= k] and [0 < p]:
    the value of Python's [k / p] on ints and of [strtod] on a decimal. *)
Definition of_ratio (s : bool) (k p : Z) : float :=
  match k, p with
  | Zpos k', Zpos p' =>
      SF2Prim (SFdiv prec emax (S754_finite s k' 0) (S754_finite false p' 0))
  | _, _ => signed_zero s
  end.

(** The integer nearest to [a / b], ties to even ([0 <= a], [0 < b]). *)
Definition div_half_even (a b : Z) : Z :=
  let q := a / b in
  let r := a mod b in
  if 2 * r <? b then q
  else if b <? 2 * r then q + 1
  else if Z.even q then q else q + 1.

(** The integer nearest to [m * 2^e * p], ties to even. *)
Definition nearest_scaled (m : positive) (e : Z) (p : Z) : Z :=
  if 0 <=? e then Zpos m * 2 ^ e * p
  else div_half_even (Zpos m * p) (2 ^ (- e)).

(** Python's [round(x, ndigits)] on a [float], [0 <= ndigits]: the exact
    value of [x] is rounded to [ndigits] decimals, ties to even, and the
    decimal is converted back to the nearest binary64. *)
Definition py_round (x : float) (ndigits : Z) : float :=
  match Prim2SF x with
  | S754_finite s m e =>
      let p := 10 ^ ndigits in
      of_ratio s (nearest_scaled m e p) p
  | _ => x
  end.

(** C's [rint] in the default rounding mode. *)
Definition rint (x : float) : float :=
  match Prim2SF x with
  | S754_finite s m e => of_ratio s (nearest_scaled m e 1) 1
  | _ => x
  end.

(** NumPy's [round] with [0 <= decimals], on a [float64] scalar or array
    element: scale, [rint], scale back. *)
Definition np_round (x : float) (decimals : Z) : float :=
  let f := float_of_int (10 ^ decimals) in
  PrimFloat.div (rint (PrimFloat.mul x f)) f.

(** Python's [round(x)] without [ndigits]: an [int], a [ValueError] on NaN
    and an [OverflowError] on the infinities. *)
Definition round_to_int (x : float) : result Z :=
  match Prim2SF x with
  | S754_finite s m e =>
      let k := nearest_scaled m e 1 in
      Ok (if s then - k else k)
  | S754_zero _ => Ok 0
  | S754_nan => Raise ValueError
  | S754_infinity _ => Raise OverflowError
  end.

(** Python's [a / b] on two ints, [0 <= a] and [0 <= b]. *)
Definition int_truediv (a b : Z) : result float :=
  if b =? 0 then Raise ZeroDivisionError else Ok (of_ratio false a b).

(** [Series.mean()] of an [int64] column: the sum, taken in binary64,
    over the count; NaN for an empty column.  The sum of the converted
    values is exact while it stays below 2^53 in magnitude. *)
Definition mean (l : list Z) : float :=
  match l with
  | [] => nan
  | _ => PrimFloat.div (float_of_int (fold_right Z.add 0 l))
                       (float_of_int (Z.of_nat (length l)))
  end.

End PyFloat.

(** ** Sorting and grouping *)

Section Sorting.

Context {A : Type}.
Variable le : A -> A -> bool.

(** Stable insertion: [x], which came first in the input, goes before
    the first element it is [le] to. *)
Fixpoint insert_sorted (x : A) (l : list A) : list A :=
  match l with
  | [] => [x]
  | y :: l' => if le x y then x :: l else y :: insert_sorted x l'
  end.

Fixpoint stable_sort (l : list A) : list A :=
  match l with
  | [] => []
  | x :: l' => insert_sorted x (stable_sort l')
  end.

End Sorting.

Section Grouping.

Context {K : Type}.
Variable eqb : K -> K -> bool.
Variable le : K -> K -> bool.

Definition mem (k : K) (l : list K) : bool := existsb (eqb k) l.

(** [Series.unique()]: the distinct values in order of first appearance. *)
Fixpoint unique_acc (seen l : list K) : list K :=
  match l with
  | [] => []
  | k :: l' =>
      if mem k seen then unique_acc seen l'
      else k :: unique_acc (k :: seen) l'
  end.

Definition unique (l : list K) : list K := unique_acc [] l.

Definition count_key (k : K) (l : list K) : Z :=
  Z.of_nat (length (filter (eqb k) l)).

(** [groupby(key).size()] on the column of keys: one entry per distinct
    key, in ascending key order, with the number of its rows. *)
Definition groupby_size (keys : list K) : list (K * Z) :=
  map (fun k => (k, count_key k keys)) (stable_sort le (unique keys)).

Fixpoint lookup (k : K) (s : list (K * Z)) : option Z :=
  match s with
  | [] => None
  | (k', v) :: s' => if eqb k k' then Some v else lookup k s'
  end.

(** [s.reindex(index, fill_value=0)]. *)
Definition reindex (index : list K) (s : list (K * Z)) : list (K * Z) :=
  map (fun k => (k, match lookup k s with Some v => v | None => 0 end)) index.

End Grouping.

(** [d[k] = v] on a [dict] with [str] keys. *)
Fixpoint dict_set {V : Type} (k : str) (v : V) (d : list (str * V))
  : list (str * V) :=
  match d with
  | [] => [(k, v)]
  | (k', v') :: d' =>
      if Str.eqb k k' then (k, v) :: d' else (k', v') :: dict_set k v d'
  end.

Fixpoint dict_get {V : Type} (k : str) (d : list (str * V)) : option V :=
  match d with
  | [] => None
  | (k', v') :: d' => if Str.eqb k k' then Some v' else dict_get k d'
  end.

(** [enumerate(l)]. *)
Definition enumerate {A : Type} (l : list A) : list (Z * A) :=
  combine (map Z.of_nat (seq 0 (length l))) l.

(** ** KPIs (lines 41-54) *)

Import PyFloat.

Definition is_positive (rv : review) : bool := sentiment_eqb (sentiment rv) Positive.
Definition is_neutral (rv : review) : bool := sentiment_eqb (sentiment rv) Neutral.
Definition is_negative (rv : review) : bool := sentiment_eqb (sentiment rv) Negative.

(** [len(df[mask])]. *)
Definition count_where (p : review -> bool) (df : frame) : Z :=
  Z.of_nat (length (filter p df)).

Definition total (df : frame) : Z := Z.of_nat (length df).

(** [round(df['rating'].mean(), 2)]: the mean is a NumPy scalar. *)
Definition avg_rating (df : frame) : float :=
  np_round (mean (map rating df)) 2.

(** [round(len(df[mask]) / total * 100, 1)]: Python ints and floats. *)
Definition pct (p : review -> bool) (df : frame) : result float :=
  q <- int_truediv (count_where p df) (total df) ;;
  Ok (py_round (PrimFloat.mul q (float_of_int 100)) 1).

Definition pct_positive (df : frame) : result float :=
  pct (fun rv => rating rv >=? 4) df.
Definition pct_negative (df : frame) : result float :=
  pct (fun rv => rating rv <=? 2) df.
Definition pct_neutral (df : frame) : result float :=
  pct (fun rv => rating rv =? 3) df.

Definition count_pos (df : frame) : Z := count_where (fun rv => rating rv >=? 4) df.
Definition count_neg (df : frame) : Z := count_where (fun rv => rating rv <=? 2) df.
Definition count_neu (df : frame) : Z := count_where (fun rv => rating rv =? 3) df.

(** Order of two timestamps. *)
Definition ts_key (t : timestamp) : list Z :=
  [ts_year t; ts_month t; ts_day t; ts_hour t; ts_minute t; ts_second t].

Fixpoint lex_leb (a b : list Z) : bool :=
  match a, b with
  | [], _ => true
  | _ :: _, [] => false
  | x :: a', y :: b' => (x <? y) || ((x =? y) && lex_leb a' b')
  end.

Definition ts_leb (a b : timestamp) : bool := lex_leb (ts_key a) (ts_key b).

(** [Series.min()] and [Series.max()] on the date column: [NaT] entries
    are skipped, and the result is [NaT] when nothing is left. *)
Fixpoint dates (df : frame) : list timestamp :=
  match df with
  | [] => []
  | rv :: df' =>
      match review_date rv with
      | Some t => t :: dates df'
      | None => dates df'
      end
  end.

Definition extremum (better : timestamp -> timestamp -> bool)
  (l : list timestamp) : option timestamp :=
  match l with
  | [] => None
  | t :: l' => Some (fold_left (fun m x => if better m x then m else x) l' t)
  end.

Definition date_col_min (df : frame) : option timestamp :=
  extremum ts_leb (dates df).
Definition date_col_max (df : frame) : option timestamp :=
  extremum (fun a b => ts_leb b a) (dates df).

Definition fmt_ymd (t : timestamp) : str :=
  zfill 4 (str_of_int (ts_year t)) ++ lit "-" ++ zfill 2 (str_of_int (ts_month t))
    ++ lit "-" ++ zfill 2 (str_of_int (ts_day t)).

(** [ts.strftime('%Y-%m-%d')]; [NaT] has no [strftime]. *)
Definition strftime_ymd (d : option timestamp) : result str :=
  match d with
  | Some t => Ok (fmt_ymd t)
  | None => Raise ValueError
  end.

(** [str(ts)]. *)
Definition str_of_date (d : option timestamp) : str :=
  match d with
  | Some t =>
      fmt_ymd t ++ lit " " ++ zfill 2 (str_of_int (ts_hour t)) ++ lit ":"
        ++ zfill 2 (str_of_int (ts_minute t)) ++ lit ":"
        ++ zfill 2 (str_of_int (ts_second t))
  | None => lit "NaT"
  end.

Definition n_years (df : frame) : Z :=
  Z.of_nat (length (unique Z.eqb (map review_year df))).

(** [round(df[df['sentiment']==s]['text_length'].mean())]. *)
Definition avg_len (p : review -> bool) (df : frame) : result Z :=
  round_to_int (mean (map text_length (filter p df))).

Record meta := {
  meta_total : Z;
  meta_avg_rating : float;
  meta_pct_positive : float;
  meta_pct_negative : float;
  meta_pct_neutral : float;
  meta_count_pos : Z;
  meta_count_neg : Z;
  meta_count_neu : Z;
  meta_date_min : str;
  meta_date_max : str;
  meta_n_years : Z;
  meta_avg_len_pos : Z;
  meta_avg_len_neu : Z;
  meta_avg_len_neg : Z
}.

(** The KPI statements in program order. *)
Definition kpis (df : frame) : result meta :=
  let t := total df in
  let avg := avg_rating df in
  pp <- pct_positive df ;;
  pn <- pct_negative df ;;
  pu <- pct_neutral df ;;
  dmin <- strftime_ymd (date_col_min df) ;;
  dmax <- strftime_ymd (date_col_max df) ;;
  let ny := n_years df in
  lp <- avg_len is_positive df ;;
  lu <- avg_len is_neutral df ;;
  ln <- avg_len is_negative df ;;
  Ok {| meta_total := t; meta_avg_rating := avg;
        meta_pct_positive := pp; meta_pct_negative := pn;
        meta_pct_neutral := pu;
        meta_count_pos := count_pos df; meta_count_neg := count_neg df;
        meta_count_neu := count_neu df;
        meta_date_min := dmin; meta_date_max := dmax; meta_n_years := ny;
        meta_avg_len_pos := lp; meta_avg_len_neu := lu;
        meta_avg_len_neg := ln |}.

(** ** Rating distributions (lines 58-67) *)

Definition stars : list Z := [1; 2; 3; 4; 5].

Definition rating_dist (sub : frame) : list Z :=
  map (fun r => count_where (fun rv => rating rv =? r) sub) stars.

Definition rating_all (df : frame) : list Z := rating_dist df.

Definition sum_list (l : list Z) : Z := fold_right Z.add 0 l.

(** [sorted(df['review_year'].unique())]. *)
Definition sorted_years (df : frame) : list Z :=
  stable_sort Z.leb (unique Z.eqb (map review_year df)).

(** [df[df['review_year'] == y]]. *)
Definition year_slice (y : Z) (df : frame) : frame :=
  filter (fun rv => review_year rv =? y) df.

Section Clock.

(** [datetime.now().year] at the time of the run. *)
Variable now_year : Z.

Definition full_years (df : frame) : list Z :=
  filter (fun y => y <? now_year) (sorted_years df).

Definition rating_by_year (df : frame) : list (str * list Z) :=
  fold_left
    (fun d y => dict_set (str_of_int y) (rating_dist (year_slice y df)) d)
    (full_years df) [].

(** [stacked]: for every star value, its count in each full year. *)
Definition stacked_years (df : frame) : list str :=
  map str_of_int (full_years df).

Definition stacked (df : frame) : list (str * list Z) :=
  map (fun r =>
         (str_of_int r,
          map (fun y => count_where (fun rv => rating rv =? r)
                          (year_slice y df))
              (full_years df)))
      stars.

End Clock.

(** ** Yearly and monthly volumes (lines 71-87) *)

Definition yearly (df : frame) : list (Z * Z) :=
  groupby_size Z.eqb Z.leb (map review_year df).

Definition yearly_labels (df : frame) : list str := map (fun p => str_of_int (fst p)) (yearly df).
Definition yearly_counts (df : frame) : list Z := map snd (yearly df).

(** [df['ym']]. *)
Definition ym (rv : review) : str :=
  str_of_int (review_year rv) ++ lit "-" ++ zfill 2 (str_of_int (review_month rv)).

(** [Series.sort_index()]. *)
Definition sort_index {V : Type} (s : list (str * V)) : list (str * V) :=
  stable_sort (fun a b => Str.leb (fst a) (fst b)) s.

Definition ym_sizes (sub : frame) : list (str * Z) :=
  groupby_size Str.eqb Str.leb (map ym sub).

Definition monthly_all (df : frame) : list (str * Z) :=
  sort_index (ym_sizes df).

Definition index_of {V : Type} (s : list (str * V)) : list str := map fst s.

Definition monthly_pos (df : frame) : list (str * Z) :=
  reindex Str.eqb (index_of (monthly_all df)) (ym_sizes (filter is_positive df)).

Definition monthly_neg (df : frame) : list (str * Z) :=
  reindex Str.eqb (index_of (monthly_all df)) (ym_sizes (filter is_negative df)).

Definition monthly_labels (df : frame) : list str := index_of (monthly_all df).
Definition monthly_all_v (df : frame) : list Z := map snd (monthly_all df).
Definition monthly_pos_v (df : frame) : list Z := map snd (monthly_pos df).
Definition monthly_neg_v (df : frame) : list Z := map snd (monthly_neg df).

(** [groupby('ym')['rating'].mean()]: one mean per month key present. *)
Definition ym_rating_mean (df : frame) : list (str * float) :=
  map (fun k => (k, mean (map rating (filter (fun rv => Str.eqb (ym rv) k) df))))
      (stable_sort Str.leb (unique Str.eqb (map ym df))).

Fixpoint lookup_float (k : str) (s : list (str * float)) : option float :=
  match s with
  | [] => None
  | (k', v) :: s' => if Str.eqb k k' then Some v else lookup_float k s'
  end.

(** [.reindex(index).round(2)]: a key without a group gets NaN. *)
Definition monthly_rating (df : frame) : list (str * float) :=
  map (fun k =>
         (k, np_round (match lookup_float k (ym_rating_mean df) with
                       | Some v => v
                       | None => nan
                       end) 2))
      (index_of (monthly_all df)).

(** [Series.ffill()]: a NaN takes the last value before it, if any. *)
Fixpoint ffill_from (prev : option float) (l : list float) : list float :=
  match l with
  | [] => []
  | x :: l' =>
      if is_nan x then
        match prev with
        | Some p => p :: ffill_from prev l'
        | None => x :: ffill_from prev l'
        end
      else x :: ffill_from (Some x) l'
  end.

Definition monthly_rating_v (df : frame) : list float :=
  ffill_from None (map snd (monthly_rating df)).

(** ** Heatmap (lines 91-100) *)

Record hm_cell := { hm_x : Z; hm_y : Z; hm_r : float; hm_v : Z }.

Definition hm_years (df : frame) : list Z := sorted_years df.
Definition hm_months : list Z := [1; 2; 3; 4; 5; 6; 7; 8; 9; 10; 11; 12].

(** [len(df[(df['review_year']==yr) & (df['review_month']==mo)])]. *)
Definition cell_count (yr mo : Z) (df : frame) : Z :=
  count_where (fun rv => (review_year rv =? yr) && (review_month rv =? mo)) df.

Section Heatmap.

(** The C library's [pow], which Python's [**] calls on two floats. *)
Variable pow : float -> float -> float.

(** [round((val**0.5)*1.5, 1)]. *)
Definition radius (val : Z) : float :=
  py_round (PrimFloat.mul (pow (float_of_int val) 0.5%float) 1.5%float) 1.

Definition hm_data (df : frame) : list hm_cell :=
  flat_map
    (fun '(yi, yr) =>
       flat_map
         (fun '(mi, mo) =>
            let val := cell_count yr mo df in
            if val >? 0
            then [{| hm_x := yi; hm_y := mi; hm_r := radius val; hm_v := val |}]
            else [])
         (enumerate hm_months))
    (enumerate (hm_years df)).

End Heatmap.

Definition hm_year_labels (df : frame) : list str := map str_of_int (hm_years df).

(** ** Top reviews (lines 139-151) *)

(** [df.nlargest(n, column)] with the default [keep='first']: the rows in
    descending order of the column, equal values in row order, cut to the
    first [n]. *)
Definition nlargest (n : nat) (key : review -> Z) (df : frame) : frame :=
  firstn n (stable_sort (fun a b => key b <=? key a) df).

Record top_review := {
  tr_author : str;
  tr_rating : Z;
  tr_thumbs : Z;
  tr_date : str;
  tr_text : str
}.

(** [.fillna({'author':'Anonymous', 'text':''})] and the loop body.  The
    [text] column holds no missing value after the load step. *)
Definition fill_author (a : option str) : str :=
  match a with
  | Some s => s
  | None => lit "Anonymous"
  end.

Definition project (rv : review) : top_review :=
  {| tr_author := slice_to 30 (fill_author (author rv));
     tr_rating := rating rv;
     tr_thumbs := thumbs_up_count rv;
     tr_date := slice_to 10 (str_of_date (review_date rv));
     tr_text := slice_to 300 (text rv) |}.

Definition top_reviews_raw (df : frame) : frame :=
  nlargest 12 thumbs_up_count df.

Definition top_reviews (df : frame) : list top_review :=
  map project (top_reviews_raw df).

(** ** Text analysis (lines 112-135 and 155-178) *)

Definition in_range (lo hi c : N) : bool := (N.leb lo c && N.leb c hi)%N.

(** The accented letters of the two character classes. *)
Definition accents : list N :=
  [233; 232; 224; 249; 244; 226; 234; 238; 251; 239; 235; 252; 339]%N.

(** The class [[a-zA-Z]] with the accented letters, shared by the
    tokenizer and the classifier. *)
Definition is_latin (c : N) : bool :=
  in_range 97 122 c || in_range 65 90 c || existsb (N.eqb c) accents.

(** The class of the Arabic block, U+0600 to U+06FF. *)
Definition is_arabic (c : N) : bool := in_range 1536 1791 c.

(** [len(re.findall(cls, text))] for a one-character class. *)
Definition count_class (cls : N -> bool) (s : str) : Z :=
  Z.of_nat (length (filter cls s)).

Definition STOPWORDS : list str :=
  [ lit "application"; lit "app"; lit "yassir"; lit "les"; lit "des";
    lit "est"; lit "une"; lit "pas"; lit "que"; lit "plus";
    lit "tr" ++ [232%N] ++ lit "s"; lit "bien"; lit "pour"; lit "sur";
    lit "avec"; lit "dans"; lit "par"; lit "qui"; lit "ce"; lit "tout";
    lit "mais"; lit "cest"; lit "cette"; lit "comme"; lit "avoir";
    lit "the"; lit "and"; lit "is"; lit "it"; lit "to"; lit "of"; lit "in";
    lit "for"; lit "on"; lit "are"; lit "this"; lit "that"; lit "not";
    lit "my"; lit "me"; lit "an"; lit "be"; lit "can"; lit "you";
    lit "your"; lit "have"; lit "had"; lit "was"; lit "but"; lit "just";
    lit "all"; lit "when"; lit "they"; lit "dont"; lit "even"; lit "get";
    lit "got"; lit "been"; lit "has"; lit "aussi"; lit "leur"; lit "leurs";
    lit "nous"; lit "vous"; lit "ils"; lit "elles";
    lit "m" ++ [234%N] ++ lit "me"; lit "apr" ++ [232%N] ++ lit "s";
    lit "avant"; lit "encore"; lit "toujours"; lit "jamais"; lit "rien";
    lit "tout"; lit "tr" ++ [232%N] ++ lit "s"; lit "trop"; lit "assez";
    lit "peu"; lit "beaucoup"; lit "plus"; lit "moins"; lit "fois";
    lit "fait"; lit "faire"; lit "sont"; [234%N] ++ lit "tre"; lit "avoir";
    lit "aller"; lit "voir"; lit "venir"; lit "pouvoir"; lit "vouloir";
    lit "savoir"; lit "les"; lit "des"; lit "est"; lit "une"; lit "pas" ].

Definition fr_markers : list str :=
  [ lit "le "; lit "la "; lit "les "; lit "est "; lit "pas "; lit "que ";
    lit "une "; lit "tr" ++ [232%N] ++ lit "s "; lit "avec "; lit "pour ";
    lit "dans " ].

Definition en_markers : list str :=
  [ lit "the "; lit "and "; lit "this "; lit "that "; lit "very ";
    lit "not "; lit "good "; lit "was "; lit "have "; lit "you " ].

(** [re.findall(r'[...]{4,}', s)]: the maximal runs of class characters
    that are at least four long, left to right.  [run] is the current run,
    reversed. *)
Fixpoint runs (run : str) (s : str) : list str :=
  match s with
  | [] => if (4 <=? length run)%nat then [rev run] else []
  | c :: s' =>
      if is_latin c then runs (c :: run) s'
      else if (4 <=? length run)%nat then rev run :: runs [] s'
           else runs [] s'
  end.

Definition findall_words (s : str) : list str := runs [] s.

(** [Counter(words)]: counts, keyed in order of first appearance. *)
Definition counter (words : list str) : list (str * Z) :=
  map (fun w => (w, count_key Str.eqb w words)) (unique Str.eqb words).

(** [Counter.most_common(n)]: descending count, equal counts in order of
    first appearance. *)
Definition most_common (n : nat) (c : list (str * Z)) : list (str * Z) :=
  firstn n (stable_sort (fun a b => snd b <=? snd a) c).

Inductive lang := Arabic | French | English.

Definition lang_eqb (a b : lang) : bool :=
  match a, b with
  | Arabic, Arabic | French, French | English, English => true
  | _, _ => false
  end.

Definition lang_name (l : lang) : str :=
  match l with
  | Arabic => lit "Arabic"
  | French => lit "French"
  | English => lit "English"
  end.

Section TextAnalysis.

(** Python's [str.lower]. *)
Variable lower : str -> str.

Definition top_words (series : list str) (n : nat) : list (str * Z) :=
  let words :=
    flat_map
      (fun text =>
         filter (fun w => negb (mem Str.eqb w STOPWORDS))
                (findall_words (lower text)))
      series in
  most_common n (counter words).

Definition words_all (df : frame) := top_words (map text df) 20.
Definition words_pos (df : frame) := top_words (map text (filter is_positive df)) 15.
Definition words_neg (df : frame) := top_words (map text (filter is_negative df)) 15.

(** [sum(m in t for m in markers)]. *)
Definition marker_count (markers : list str) (t : str) : Z :=
  sum_list (map (fun m => if contains t m then 1 else 0) markers).

Definition detect_lang (text : str) : lang :=
  let arabic := count_class is_arabic text in
  let latin := count_class is_latin text in
  if arabic >? latin then Arabic
  else
    let t := lower text in
    if marker_count fr_markers t >=? marker_count en_markers t
    then French else English.

End TextAnalysis.

(** An instance of [lower] for evaluation: Python's [str.lower] on texts
    made of ASCII, Latin-1 and Arabic-block code points. *)
Definition lower_latin1 (s : str) : str :=
  map (fun c =>
         if in_range 65 90 c then (c + 32)%N
         else if in_range 192 222 c && negb (N.eqb c 215) then (c + 32)%N
         else c) s.

(** ** Language distribution on a sample (lines 166-178) *)

Definition SAMPLE_N : nat := 1500.

(** A JSON number that is either a Python [int] or a [float]. *)
Inductive number := Int (z : Z) | Float (f : float).

Section Sampling.

Variable lower : str -> str.

(** [df.sample(n, random_state=42)]: the row positions NumPy's generator
    seeded with 42 draws for a table of [len] rows and a sample of [n]. *)
Variable sample_positions : nat -> nat -> list nat.

(** The sampled rows with their index labels. *)
Definition sample (df : frame) : list (nat * review) :=
  flat_map
    (fun i => match nth_error df i with
              | Some rv => [(i, rv)]
              | None => []
              end)
    (sample_positions (length df) (Nat.min SAMPLE_N (length df))).

(** [sample['lang']]. *)
Definition sample_lang (df : frame) : list (nat * lang) :=
  map (fun '(i, rv) => (i, detect_lang lower (text rv))) (sample df).

(** [value_counts()]: labels in order of first appearance, sorted by
    descending count. *)
Definition lang_counts_raw (df : frame) : list (lang * Z) :=
  let labels := map snd (sample_lang df) in
  stable_sort (fun a b => snd b <=? snd a)
    (map (fun l => (l, count_key lang_eqb l labels)) (unique lang_eqb labels)).

Definition lang_labels (df : frame) : list lang := map fst (lang_counts_raw df).
Definition lang_counts (df : frame) : list Z := map snd (lang_counts_raw df).

(** [df.loc[df.index.isin(ids), 'rating']]. *)
Definition ratings_at (ids : list nat) (df : frame) : list Z :=
  map (fun p => rating (snd p))
    (filter (fun p => existsb (Nat.eqb (fst p)) ids)
            (combine (seq 0 (length df)) df)).

Definition lang_ratings (df : frame) : list number :=
  map (fun l =>
         let ids := map fst (filter (fun p => lang_eqb (snd p) l) (sample_lang df)) in
         match ids with
         | [] => Int 0
         | _ => Float (np_round (mean (ratings_at ids df)) 2)
         end)
      (lang_labels df).

End Sampling.

(** ** The packed data and the output file (lines 181-662) *)

Record DATA := {
  d_meta : meta;
  d_rating_all : list Z;
  d_rating_by_year : list (str * list Z);
  d_yearly_labels : list str;
  d_yearly_counts : list Z;
  d_monthly_labels : list str;
  d_monthly_all : list Z;
  d_monthly_pos : list Z;
  d_monthly_neg : list Z;
  d_monthly_avg_rating : list float;
  d_heatmap_data : list hm_cell;
  d_heatmap_year_labels : list str;
  d_stacked_years : list str;
  d_stacked_by_star : list (str * list Z);
  d_words_all : list (str * Z);
  d_words_pos : list (str * Z);
  d_words_neg : list (str * Z);
  d_top_reviews : list top_review;
  d_lang_labels : list lang;
  d_lang_counts : list Z;
  d_lang_avg_ratings : list number
}.

(** The written document is the fixed template around [json.dumps(DATA)];
    it is identified with the data it embeds. *)
Inductive document := HTML (data : DATA).

Definition OUT_PATH : str := lit "yassir_dashboard.html".

(** The files on disk, by path. *)
Definition filesystem := list (str * document).

Section Pipeline.

Variable now_year : Z.
Variable lower : str -> str.
Variable pow : float -> float -> float.
Variable sample_positions : nat -> nat -> list nat.

(** Lines 41-206 on the loaded table.  The only statements that can
    raise are among the KPIs. *)
Definition compute_data (df : frame) : result DATA :=
  m <- kpis df ;;
  Ok {| d_meta := m;
        d_rating_all := rating_all df;
        d_rating_by_year := rating_by_year now_year df;
        d_yearly_labels := yearly_labels df;
        d_yearly_counts := yearly_counts df;
        d_monthly_labels := monthly_labels df;
        d_monthly_all := monthly_all_v df;
        d_monthly_pos := monthly_pos_v df;
        d_monthly_neg := monthly_neg_v df;
        d_monthly_avg_rating := monthly_rating_v df;
        d_heatmap_data := hm_data pow df;
        d_heatmap_year_labels := hm_year_labels df;
        d_stacked_years := stacked_years now_year df;
        d_stacked_by_star := stacked now_year df;
        d_words_all := words_all lower df;
        d_words_pos := words_pos lower df;
        d_words_neg := words_neg lower df;
        d_top_reviews := top_reviews df;
        d_lang_labels := lang_labels lower sample_positions df;
        d_lang_counts := lang_counts lower sample_positions df;
        d_lang_avg_ratings := lang_ratings lower sample_positions df |}.

(** The run after the load step: the file is written last, and only if
    nothing raised before. *)
Definition main (df : frame) (fs : filesystem) : filesystem * result unit :=
  match compute_data df with
  | Ok d => (dict_set OUT_PATH (HTML d) fs, Ok tt)
  | Raise e => (fs, Raise e)
  end.

End Pipeline.


(** ** The load step (lines 27-31) *)

Module Loader.




















Section Load.

(** The date parser behind [pd.to_datetime]: [None] where the field
    is not a date. *)
Variable parse_date : str -> option timestamp.




End Load.





End Loader.

(** ** Vocabulary of the proofs *)

(** Reading a string of decimal digits back. *)
Definition digit_val (c : char) : Z := Z.of_N c - 48.

Definition decimal (acc : Z) (s : str) : Z :=
  fold_left (fun a c => 10 * a + digit_val c) s acc.

Definition is_digit (c : char) : Prop := (48 <= c <= 57)%N.

Section HeatmapParts.

Variable pow : float -> float -> float.

(** The body of the inner loop of the heatmap and one turn of the outer
    loop. *)
Definition cell_at (df : frame) (yi yr mi mo : Z) : list hm_cell :=
  let val := cell_count yr mo df in
  if val >? 0
  then [{| hm_x := yi; hm_y := mi; hm_r := radius pow val; hm_v := val |}]
  else [].

Definition year_cells (df : frame) (yi yr : Z) : list hm_cell :=
  flat_map (fun '(mi, mo) => cell_at df yi yr mi mo) (enumerate hm_months).

End HeatmapParts.








(** [m] occurs in [t]: what Python's [m in t] decides. *)
Definition occurs (m t : str) : Prop := exists pre post, t = pre ++ m ++ post.

(** The masks of the values the histogram and the heatmap have a bucket
    for. *)
Definition star_rated (rv : review) : bool :=
  (1 <=? rating rv) && (rating rv <=? 5).

Definition month_valid (rv : review) : bool :=
  (1 <=? review_month rv) && (review_month rv <=? 12).

(** A bounded check: [ok] holds of the [fuel] integers from [z] on. *)
Fixpoint all_from (ok : Z -> bool) (fuel : nat) (z : Z) : bool :=
  match fuel with
  | O => true
  | S fuel' => ok z && all_from ok fuel' (z + 1)
  end.

(** ** The classifier as its description has it *)

Module Described.

(** The Arabic block, U+0600 to U+06FF. *)
Definition arabic_script (c : char) : bool :=
  ((1536 <=? c) && (c <=? 1791))%N.

(** The letters a to z and A to Z and thirteen accented letters. *)
Definition accented : list char :=
  [233; 232; 224; 249; 244; 226; 234; 238; 251; 239; 235; 252; 339]%N.

Definition latin_letter (c : char) : bool :=
  (((97 <=? c) && (c <=? 122)) || ((65 <=? c) && (c <=? 90)))%N
  || existsb (N.eqb c) accented.

(** The number of code points of a class in a text. *)
Fixpoint count_points (cls : char -> bool) (s : str) : Z :=
  match s with
  | [] => 0
  | c :: s' => (if cls c then 1 else 0) + count_points cls s'
  end.

(** [m] is read at offset [i] of [t]. *)
Definition at_offset (m t : str) (i : nat) : bool :=
  Str.eqb (firstn (length m) (skipn i t)) m.

Definition has_substring (m t : str) : bool :=
  existsb (at_offset m t) (seq 0 (S (length t))).

(** The number of markers of a list that a text contains. *)
Definition markers_present (markers : list str) (t : str) : Z :=
  Z.of_nat (length (filter (fun m => has_substring m t) markers)).

Definition french_markers : list str :=
  [ lit "le "; lit "la "; lit "les "; lit "est "; lit "pas "; lit "que ";
    lit "une "; [116; 114; 232; 115; 32]%N; lit "avec "; lit "pour ";
    lit "dans " ].

Definition english_markers : list str :=
  [ lit "the "; lit "and "; lit "this "; lit "that "; lit "very ";
    lit "not "; lit "good "; lit "was "; lit "have "; lit "you " ].

End Described.

(** ** The date of a top review, digit by digit *)

Definition digit_char (k : Z) : char := (48 + Z.to_N (k mod 10))%N.

Definition four_digits (y : Z) : str :=
  [digit_char (y / 1000); digit_char (y / 100); digit_char (y / 10);
   digit_char y].

Definition two_digits (m : Z) : str := [digit_char (m / 10); digit_char m].

(** [YYYY-MM-DD]. *)
Definition iso_date (y m d : Z) : str :=
  four_digits y ++ 45%N :: two_digits m ++ 45%N :: two_digits d.

Definition year_ok (y : Z) : bool :=
  Str.eqb (zfill 4 (str_of_int y)) (four_digits y).

Definition two_ok (m : Z) : bool :=
  Str.eqb (zfill 2 (str_of_int m)) (two_digits m).

(** ** The radius of a heatmap cell, in tenths *)





(** ** Example tables *)

Module Examples.

Definition day (y m d : Z) : timestamp :=
  {| ts_year := y; ts_month := m; ts_day := d;
     ts_hour := 0; ts_minute := 0; ts_second := 0 |}.

Definition row (a : option str) (r : Z) (t : str) (y m th : Z) : review :=
  {| author := a; rating := r; text := t;
     review_date := Some (day y m 5); review_year := y; review_month := m;
     thumbs_up_count := th; text_length := len t |}.

(** Five reviews with the ratings 5, 4, 3, 2, 1, written in 2023-2025. *)
Definition five : frame :=
  [ row None 5 (lit "Tres bonne application pour les courses") 2023 1 3;
    row (Some (lit "Bob")) 4 (lit "the driver was very good") 2023 11 7;
    row (Some (lit "Al")) 3 (lit "Ana nehwes app mliha bezaf") 2024 2 7;
    row None 2 (lit "mauvais service client") 2024 2 0;
    row None 1 (lit "service mauvais driver") 2025 12 9 ].

(** A sampler that takes the first rows. *)
Definition first_rows (len n : nat) : list nat := seq 0 n.

(** A correctly rounded [pow] for the exponent one half. *)
Definition sqrt_pow (x y : float) : float := PrimFloat.sqrt x.

Definition ana : str := lit "Ana nehwes app mliha bezaf".

(** Five Arabic letters, an English sentence, and a text with more Latin
    letters than Arabic ones. *)
Definition mumtaz : str := [1605; 1605; 1578; 1575; 1586]%N.
Definition english_text : str := lit "The driver was very good and fast".
Definition mixed : str := lit "app " ++ [1605; 1605]%N.


(** One review whose date did not parse. *)
Definition undated : frame :=
  [ {| author := None; rating := 4; text := lit "ok"; review_date := None;
       review_year := 2024; review_month := 2; thumbs_up_count := 0;
       text_length := 2 |} ].









End Examples.

(** * Properties *)

(** ** Sentiment *)

Lemma sentiment_of_rating_cases (r : Z) :
  (4 <= r /\ sentiment_of_rating r = Positive) \/
  (r <= 2 /\ sentiment_of_rating r = Negative) \/
  (r = 3 /\ sentiment_of_rating r = Neutral).
Proof.
  unfold sentiment_of_rating.
  destruct (r >=? 4) eqn:E4; [left; split; [lia | reflexivity] |].
  destruct (r <=? 2) eqn:E2; [right; left; split; [lia | reflexivity] |].
  right; right; split; [lia | reflexivity].
Qed.

(** C1: the sentiment of a record is decided by its rating alone: Positive
    exactly from 4 up, Negative exactly up to 2, Neutral exactly at the
    remaining rating, so that every record carries exactly one label. *)
Theorem sentiment_by_rating (rv : review) :
  (sentiment rv = Positive <-> 4 <= rating rv) /\
  (sentiment rv = Negative <-> rating rv <= 2) /\
  (sentiment rv = Neutral <-> 2 < rating rv < 4) /\
  (forall rv', rating rv' = rating rv -> sentiment rv' = sentiment rv).
Proof.
  unfold sentiment.
  destruct (sentiment_of_rating_cases (rating rv)) as [[H E] | [[H E] | [H E]]];
    rewrite E; repeat split; intros; try lia; try discriminate; try congruence.
Qed.

Lemma sentiment_by_rating_witness :
  sentiment (Examples.row None 5 [] 2023 1 0) = Positive /\
  sentiment (Examples.row None 5 [] 2020 7 3)
  = sentiment (Examples.row None 5 [] 2023 1 0).
Proof.
  destruct (sentiment_by_rating (Examples.row None 5 [] 2023 1 0))
    as (HP & _ & _ & Hsame).
  split.
  - apply HP. simpl. lia.
  - apply Hsame. reflexivity.
Defined.

(** ** Language classifier *)

Lemma str_eqb_eq (a b : str) : Str.eqb a b = true <-> a = b.
Proof.
  unfold Str.eqb. destruct (list_eq_dec N.eq_dec a b); split;
    intros; congruence.
Qed.

Lemma occurs_prefix (m t : str) :
  (exists rest, t = m ++ rest) \/
  (exists c t', t = c :: t' /\ occurs m t') <-> occurs m t.
Proof.
  unfold occurs. split.
  - intros [(rest & ->) | (c & t' & -> & pre & post & ->)].
    + exists [], rest. reflexivity.
    + exists (c :: pre), post. reflexivity.
  - intros ([| c pre] & post & ->).
    + left. exists post. reflexivity.
    + right. exists c, (pre ++ m ++ post). split; [reflexivity |].
      exists pre, post. reflexivity.
Qed.

Lemma prefixb_occurs (p : str) :
  forall s, prefixb p s = true <-> exists rest, s = p ++ rest.
Proof.
  induction p as [| a p IH]; intros s; simpl.
  - split; [intros _; exists s; reflexivity | reflexivity].
  - destruct s as [| b s].
    + split; [discriminate | intros (rest & E); discriminate].
    + rewrite andb_true_iff, N.eqb_eq, IH. split.
      * intros [-> (rest & ->)]. exists rest. reflexivity.
      * intros (rest & E). injection E as -> ->. split; [reflexivity |].
        exists rest. reflexivity.
Qed.

Lemma contains_occurs (t m : str) : contains t m = true <-> occurs m t.
Proof.
  induction t as [| c t IH]; simpl; rewrite <- occurs_prefix.
  - rewrite orb_false_r, prefixb_occurs. split; [auto |].
    intros [H | (c & t' & E & _)]; [exact H | discriminate].
  - rewrite orb_true_iff, prefixb_occurs, IH. split.
    + intros [H | H]; [left; exact H | right; exists c, t; auto].
    + intros [H | (c' & t' & E & H)]; [left; exact H |].
      injection E as -> ->. right. exact H.
Qed.

(** A substring is read at one of the offsets of the text. *)
Lemma has_substring_occurs (m t : str) :
  Described.has_substring m t = true <-> occurs m t.
Proof.
  unfold Described.has_substring, Described.at_offset, occurs.
  rewrite existsb_exists. split.
  - intros (i & _ & E). apply str_eqb_eq in E.
    exists (firstn i t), (skipn (length m) (skipn i t)).
    rewrite <- (firstn_skipn i t) at 1. f_equal.
    rewrite <- (firstn_skipn (length m) (skipn i t)) at 1. f_equal.
    exact E.
  - intros (pre & post & ->). exists (length pre). split.
    + apply in_seq. rewrite !length_app. lia.
    + apply str_eqb_eq.
      rewrite skipn_app, skipn_all, Nat.sub_diag. simpl.
      rewrite firstn_app, firstn_all, Nat.sub_diag. simpl.
      apply app_nil_r.
Qed.

Lemma count_class_points (cls : char -> bool) (s : str) :
  count_class cls s = Described.count_points cls s.
Proof.
  unfold count_class. induction s as [| c s IH]; [reflexivity |].
  simpl. destruct (cls c); simpl length; lia.
Qed.

Lemma count_points_ext (f g : char -> bool) (s : str) :
  (forall c, f c = g c) ->
  Described.count_points f s = Described.count_points g s.
Proof.
  intros H. induction s as [| c s IH]; simpl; [reflexivity |].
  rewrite H, IH. reflexivity.
Qed.

Lemma count_points_none (cls : char -> bool) (s : str) :
  Forall (fun c => cls c = false) s -> Described.count_points cls s = 0.
Proof.
  induction 1 as [| c s Hc Hs IH]; simpl; [reflexivity |].
  rewrite Hc, IH. reflexivity.
Qed.

Lemma count_points_nonneg (cls : char -> bool) (s : str) :
  0 <= Described.count_points cls s.
Proof. induction s as [| c s IH]; simpl; [| destruct (cls c)]; lia. Qed.

Lemma marker_count_present (markers : list str) (t : str) :
  marker_count markers t = Described.markers_present markers t.
Proof.
  unfold marker_count, Described.markers_present.
  induction markers as [| m markers IH]; [reflexivity |].
  simpl. rewrite IH.
  assert (E : contains t m = Described.has_substring m t).
  { destruct (contains t m) eqn:Ec, (Described.has_substring m t) eqn:Eh;
      try reflexivity.
    - apply contains_occurs, has_substring_occurs in Ec. congruence.
    - apply has_substring_occurs, contains_occurs in Eh. congruence. }
  rewrite E. destruct (Described.has_substring m t); simpl length; lia.
Qed.

(** C3: the classifier returns Arabic exactly when the Arabic-script
    code points of the text outnumber its Latin letters, otherwise French
    exactly when the French markers that the lower-cased text contains are
    at least as many as the English ones, otherwise English; so every text
    gets exactly one label.  A text without Arabic-script code points, such
    as the sample sentence, is never Arabic.  The counts are those of the
    description: code points of the block U+0600-U+06FF, letters a-z, A-Z
    and the thirteen accented ones, and markers that occur as substrings,
    each counted once. *)
Theorem detect_lang_spec (lower : str -> str) (text : str) :
  let arabic := Described.count_points Described.arabic_script text in
  let latin := Described.count_points Described.latin_letter text in
  let fr := Described.markers_present Described.french_markers (lower text) in
  let en := Described.markers_present Described.english_markers (lower text) in
  (detect_lang lower text = Arabic <-> latin < arabic) /\
  (detect_lang lower text = French <-> arabic <= latin /\ en <= fr) /\
  (detect_lang lower text = English <-> arabic <= latin /\ fr < en) /\
  (Forall (fun c => c < 1536 \/ 1791 < c)%N text ->
   detect_lang lower text <> Arabic) /\
  detect_lang lower Examples.ana <> Arabic.
Proof.
  intros arabic latin fr en.
  assert (Hspec : forall t,
    detect_lang lower t =
      if Described.count_points Described.arabic_script t
         >? Described.count_points Described.latin_letter t then Arabic
      else if Described.markers_present Described.french_markers (lower t)
              >=? Described.markers_present Described.english_markers (lower t)
           then French else English).
  { intros t. unfold detect_lang.
    rewrite !count_class_points, !marker_count_present. reflexivity. }
  assert (Hlat : 0 <= latin) by apply count_points_nonneg.
  rewrite Hspec. fold arabic latin fr en.
  split; [| split; [| split; [| split]]].
  - destruct (arabic >? latin) eqn:E;
      [split; [lia | reflexivity] |].
    destruct (fr >=? en); split; try discriminate; lia.
  - destruct (arabic >? latin) eqn:E; [split; [discriminate | lia] |].
    destruct (fr >=? en) eqn:E'; split; try discriminate; try reflexivity;
      lia.
  - destruct (arabic >? latin) eqn:E; [split; [discriminate | lia] |].
    destruct (fr >=? en) eqn:E'; split; try discriminate; try reflexivity;
      lia.
  - intros Hnone.
    assert (H0 : arabic = 0).
    { apply count_points_none. eapply Forall_impl; [| exact Hnone].
      intros c Hc. unfold Described.arabic_script.
      apply andb_false_iff.
      destruct Hc; [left; apply N.leb_gt | right; apply N.leb_gt]; assumption. }
    destruct (arabic >? latin) eqn:E; [lia |].
    destruct (fr >=? en); discriminate.
  - rewrite Hspec.
    replace (Described.count_points Described.arabic_script Examples.ana
             >? Described.count_points Described.latin_letter Examples.ana)
      with false by (vm_compute; reflexivity).
    destruct (_ >=? _); discriminate.
Qed.

Lemma detect_lang_spec_witness :
  detect_lang lower_latin1 Examples.mumtaz = Arabic /\
  detect_lang lower_latin1 Examples.ana = French /\
  detect_lang lower_latin1 Examples.english_text = English /\
  detect_lang lower_latin1 Examples.mixed = French /\
  detect_lang lower_latin1 Examples.ana <> Arabic.
Proof.
  destruct (detect_lang_spec lower_latin1 Examples.mumtaz) as (HA & _).
  destruct (detect_lang_spec lower_latin1 Examples.ana)
    as (_ & HF & _ & Hnone & _).
  destruct (detect_lang_spec lower_latin1 Examples.english_text)
    as (_ & _ & HE & _).
  destruct (detect_lang_spec lower_latin1 Examples.mixed) as (_ & HM & _).
  split; [apply HA; vm_compute; reflexivity |].
  split; [apply HF; vm_compute; split; discriminate |].
  split; [apply HE; vm_compute; split; [discriminate | reflexivity] |].
  split; [apply HM; vm_compute; split; discriminate |].
  apply Hnone. unfold Examples.ana. simpl.
  repeat (constructor; [left; reflexivity |]). constructor.
Defined.

(** ** Rounding *)

(** The two rounding functions on values that are not binary fractions:
    Python rounds the exact binary value, NumPy the scaled one. *)
Example py_round_2_675 : py_round 0x1.5666666666666p+1%float 2 = 0x1.55c28f5c28f5cp+1%float.
Proof. vm_compute. reflexivity. Qed.

Example np_round_2_675 : np_round 0x1.5666666666666p+1%float 2 = 0x1.570a3d70a3d71p+1%float.
Proof. vm_compute. reflexivity. Qed.

Example py_round_half_even : py_round 0.125%float 2 = 0x1.eb851eb851eb8p-4%float.
Proof. vm_compute. reflexivity. Qed.

Example rint_half_even : rint 2.5%float = 2%float /\ rint 3.5%float = 4%float.
Proof. split; vm_compute; reflexivity. Qed.

Example int_truediv_by_zero : int_truediv 0 0 = Raise ZeroDivisionError.
Proof. reflexivity. Qed.

(** ** KPIs *)

Lemma filter_map_comm {A B : Type} (f : A -> B) (p : B -> bool) (l : list A) :
  filter p (map f l) = map f (filter (fun x => p (f x)) l).
Proof.
  induction l as [| a l IH]; simpl; [reflexivity |].
  destruct (p (f a)); simpl; rewrite IH; reflexivity.
Qed.

(** A count that looks only at the rating is a count on the rating column. *)
Lemma count_where_rating (p : Z -> bool) (df : frame) :
  count_where (fun rv => p (rating rv)) df
  = Z.of_nat (length (filter p (map rating df))).
Proof.
  unfold count_where. rewrite filter_map_comm, length_map. reflexivity.
Qed.

Lemma total_rating (df : frame) : total df = Z.of_nat (length (map rating df)).
Proof. unfold total. rewrite length_map. reflexivity. Qed.

(** C8: on five records rated 5, 4, 3, 2, 1 the average rating is 3.0, the
    positive and negative shares are 40.0 each, the neutral share is 20.0
    and every bucket of the rating histogram holds one record. *)
Theorem kpi_five_ratings (df : frame) :
  map rating df = [5; 4; 3; 2; 1] ->
  avg_rating df = 3%float /\
  pct_positive df = Ok 40%float /\
  pct_negative df = Ok 40%float /\
  pct_neutral df = Ok 20%float /\
  rating_all df = [1; 1; 1; 1; 1].
Proof.
  intros H.
  unfold avg_rating, pct_positive, pct_negative, pct_neutral, pct,
    rating_all, rating_dist, stars.
  cbn [map].
  rewrite !(count_where_rating (fun r => r >=? 4)),
    !(count_where_rating (fun r => r <=? 2)),
    !(count_where_rating (fun r => r =? 3)),
    !(count_where_rating (fun r => r =? 1)),
    !(count_where_rating (fun r => r =? 2)),
    !(count_where_rating (fun r => r =? 4)),
    !(count_where_rating (fun r => r =? 5)),
    !total_rating, H.
  repeat split; vm_compute; reflexivity.
Qed.

Lemma kpi_five_ratings_witness :
  avg_rating Examples.five = 3%float /\
  pct_positive Examples.five = Ok 40%float /\
  pct_negative Examples.five = Ok 40%float /\
  pct_neutral Examples.five = Ok 20%float /\
  rating_all Examples.five = [1; 1; 1; 1; 1].
Proof.
  apply (kpi_five_ratings Examples.five). reflexivity.
Defined.

(** The average of the five ratings is 3.0 under Python's rounding as
    well, should the mean be a plain [float]. *)
Lemma avg_rating_five_py_round :
  py_round (mean (map rating Examples.five)) 2 = 3%float.
Proof. vm_compute. reflexivity. Qed.

(** When no date of the table parsed, the minimum of the date column is
    NaT and formatting it raises. *)
Lemma undated_table_raises : kpis Examples.undated = Raise ValueError.
Proof. vm_compute. reflexivity. Qed.

(** ** The empty table *)

(** C10: on a table without records the run stops with a division by zero
    at the first percentage, after the average (a NaN) was computed without
    error, and the files on disk are left as they were; a run that writes
    its file had at least one record. *)
Theorem empty_table_raises
  (now_year : Z) (lower : str -> str) (pow : float -> float -> float)
  (sample_positions : nat -> nat -> list nat) (fs : filesystem) :
  is_nan (avg_rating []) = true /\
  pct_positive [] = Raise ZeroDivisionError /\
  kpis [] = Raise ZeroDivisionError /\
  main now_year lower pow sample_positions [] fs
  = (fs, Raise ZeroDivisionError) /\
  (forall df, snd (main now_year lower pow sample_positions df fs) = Ok tt ->
              df <> []).
Proof.
  repeat split; try reflexivity.
  intros df H ->. discriminate H.
Qed.

Lemma empty_table_raises_witness :
  Examples.five <> [].
Proof.
  refine (proj2 (proj2 (proj2 (proj2
    (empty_table_raises 2026 lower_latin1 Examples.sqrt_pow
       Examples.first_rows [])))) Examples.five _).
  vm_compute. reflexivity.
Defined.

(** ** Sorting *)

Section SortingFacts.

Context {A : Type}.
Variable le : A -> A -> bool.

Lemma insert_sorted_perm (x : A) (l : list A) :
  Permutation (insert_sorted le x l) (x :: l).
Proof.
  induction l as [| y l IH]; simpl; [apply Permutation_refl |].
  destruct (le x y); [apply Permutation_refl |].
  eapply perm_trans; [apply perm_skip, IH | apply perm_swap].
Qed.

Lemma stable_sort_perm (l : list A) : Permutation (stable_sort le l) l.
Proof.
  induction l as [| x l IH]; simpl; [constructor |].
  eapply perm_trans; [apply insert_sorted_perm | apply perm_skip, IH].
Qed.

Lemma stable_sort_in (x : A) (l : list A) :
  In x (stable_sort le l) <-> In x l.
Proof.
  split; apply Permutation_in;
    [apply stable_sort_perm | apply Permutation_sym, stable_sort_perm].
Qed.

Lemma stable_sort_length (l : list A) :
  length (stable_sort le l) = length l.
Proof. apply Permutation_length, stable_sort_perm. Qed.

Lemma stable_sort_nodup (l : list A) :
  NoDup l -> NoDup (stable_sort le l).
Proof.
  intros H. eapply Permutation_NoDup; [| exact H].
  apply Permutation_sym, stable_sort_perm.
Qed.

Hypothesis le_total : forall a b, le a b = true \/ le b a = true.
Hypothesis le_trans :
  forall a b c, le a b = true -> le b c = true -> le a c = true.

Lemma insert_sorted_sorted (x : A) (l : list A) :
  StronglySorted (fun a b => le a b = true) l ->
  StronglySorted (fun a b => le a b = true) (insert_sorted le x l).
Proof.
  induction 1 as [| y l Hs IH Hall]; simpl.
  - repeat constructor.
  - destruct (le x y) eqn:E.
    + constructor; [constructor; assumption |].
      constructor; [exact E |].
      rewrite Forall_forall in *. intros z Hz. eauto.
    + constructor; [exact IH |].
      rewrite Forall_forall in *. intros z Hz.
      apply (Permutation_in _ (insert_sorted_perm x l)) in Hz.
      destruct Hz as [<- | Hz]; [| auto].
      destruct (le_total x y) as [H | H]; congruence.
Qed.

Lemma stable_sort_sorted (l : list A) :
  StronglySorted (fun a b => le a b = true) (stable_sort le l).
Proof.
  induction l as [| x l IH]; simpl;
    [constructor | apply insert_sorted_sorted, IH].
Qed.

End SortingFacts.

(** Sorting by descending key keeps rows of equal key in input order. *)
Section Stability.

Context {A : Type}.
Variable key : A -> Z.

Let desc (a b : A) : bool := key b <=? key a.

Lemma insert_desc_stable (v : Z) (x : A) (l : list A) :
  filter (fun a => key a =? v) (insert_sorted desc x l)
  = filter (fun a => key a =? v) (x :: l).
Proof.
  induction l as [| y l IH]; [reflexivity |].
  cbn [insert_sorted]. unfold desc at 1.
  destruct (key y <=? key x) eqn:E; [reflexivity |].
  cbn [filter] in *. rewrite IH.
  destruct (key y =? v) eqn:Ey, (key x =? v) eqn:Ex; try reflexivity; lia.
Qed.

Lemma sort_desc_stable (v : Z) (l : list A) :
  filter (fun a => key a =? v) (stable_sort desc l)
  = filter (fun a => key a =? v) l.
Proof.
  induction l as [| x l IH]; [reflexivity |].
  cbn [stable_sort]. rewrite insert_desc_stable.
  cbn [filter]. rewrite IH. reflexivity.
Qed.

Lemma sort_desc_sorted (l : list A) :
  StronglySorted (fun a b => key b <= key a) (stable_sort desc l).
Proof.
  assert (H : StronglySorted (fun a b => desc a b = true) (stable_sort desc l)).
  { apply stable_sort_sorted; unfold desc; intros; lia. }
  induction H as [| a l' Hs IH Hall]; constructor; [exact IH |].
  eapply Forall_impl; [| exact Hall].
  unfold desc. intros; lia.
Qed.

End Stability.

Lemma firstn_sorted {A : Type} (R : A -> A -> Prop) (n : nat) (l : list A) :
  StronglySorted R l -> StronglySorted R (firstn n l).
Proof.
  intros H. revert n.
  induction H as [| a l Hs IH Hall]; intros [| n]; simpl; try constructor.
  - apply IH.
  - rewrite Forall_forall in *. intros x Hx. apply Hall.
    rewrite <- (firstn_skipn n l). apply in_or_app. left. exact Hx.
Qed.

Lemma sorted_split {A : Type} (R : A -> A -> Prop) (n : nat) (l : list A) :
  StronglySorted R l ->
  forall a b, In a (firstn n l) -> In b (skipn n l) -> R a b.
Proof.
  intros H. revert n.
  induction H as [| x l Hs IH Hall]; intros n a b Ha Hb.
  - rewrite firstn_nil in Ha. destruct Ha.
  - destruct n as [| n]; simpl in *; [destruct Ha |].
    destruct Ha as [<- | Ha]; [| eauto].
    rewrite Forall_forall in Hall. apply Hall.
    rewrite <- (firstn_skipn n l). apply in_or_app. right. exact Hb.
Qed.

Lemma filter_firstn_prefix {A : Type} (p : A -> bool) (n : nat) (l : list A) :
  exists rest, filter p l = filter p (firstn n l) ++ rest.
Proof.
  exists (filter p (skipn n l)).
  rewrite <- filter_app, firstn_skipn. reflexivity.
Qed.

Lemma sorted_map {A B : Type} (f : A -> B) (R : B -> B -> Prop) (l : list A) :
  StronglySorted (fun a b => R (f a) (f b)) l -> StronglySorted R (map f l).
Proof.
  induction 1 as [| a l Hs IH Hall]; simpl; constructor; [exact IH |].
  rewrite Forall_forall in *. intros t Ht.
  apply in_map_iff in Ht. destruct Ht as (x & <- & Hx). auto.
Qed.

(** ** Top reviews *)

Lemma slice_to_length (n : nat) (s : str) : (length (slice_to n s) <= n)%nat.
Proof. unfold slice_to. rewrite length_firstn. lia. Qed.

Lemma all_from_spec (ok : Z -> bool) (fuel : nat) :
  forall z, all_from ok fuel z = true ->
            forall k, z <= k < z + Z.of_nat fuel -> ok k = true.
Proof.
  induction fuel as [| fuel IH]; intros z H k Hk; [lia |].
  cbn [all_from] in H. apply andb_true_iff in H. destruct H as [H0 H].
  destruct (Z.eq_dec k z) as [-> | Hne]; [exact H0 |].
  apply (IH (z + 1) H). lia.
Qed.

Lemma years_checked : all_from year_ok (Z.to_nat 10000) 0 = true.
Proof. vm_compute. reflexivity. Qed.

Lemma months_checked : all_from two_ok (Z.to_nat 100) 0 = true.
Proof. vm_compute. reflexivity. Qed.

(** The first ten characters of [str(ts)] are the ISO date. *)
Lemma fmt_ymd_iso (t : timestamp) :
  0 <= ts_year t <= 9999 -> 0 <= ts_month t <= 99 -> 0 <= ts_day t <= 99 ->
  fmt_ymd t = iso_date (ts_year t) (ts_month t) (ts_day t).
Proof.
  intros Hy Hm Hd. unfold fmt_ymd, iso_date.
  assert (Ey : zfill 4 (str_of_int (ts_year t)) = four_digits (ts_year t)).
  { apply str_eqb_eq.
    apply (all_from_spec year_ok _ 0 years_checked). rewrite Z2Nat.id; lia. }
  assert (Em : zfill 2 (str_of_int (ts_month t)) = two_digits (ts_month t)).
  { apply str_eqb_eq.
    apply (all_from_spec two_ok _ 0 months_checked). rewrite Z2Nat.id; lia. }
  assert (Ed : zfill 2 (str_of_int (ts_day t)) = two_digits (ts_day t)).
  { apply str_eqb_eq.
    apply (all_from_spec two_ok _ 0 months_checked). rewrite Z2Nat.id; lia. }
  rewrite Ey, Em, Ed. reflexivity.
Qed.

Lemma Forall2_map_right {A B : Type} (f : A -> B) (P : A -> B -> Prop)
  (l : list A) :
  (forall a, In a l -> P a (f a)) -> Forall2 P l (map f l).
Proof.
  induction l as [| a l IH]; intros H; simpl; constructor.
  - apply H. left. reflexivity.
  - apply IH. intros a' Ha'. apply H. right. exact Ha'.
Qed.

(** C2: the list has min(12, number of records) entries, one per record of
    the records with the most thumbs up, in the same order: nothing left
    out has more thumbs up than a listed record, the listed records are in
    descending order of thumbs up, and records with equal thumbs up keep
    their input order (for every value the listed records that have it are
    the first of the input that have it).  A record with more thumbs up
    than every other is the first.  An entry carries the thumbs up and the
    rating of its record, the first 30 characters of its author, or of
    Anonymous when there is none, the first 300 characters of its text, and
    the first 10 characters of its date as a string: the ISO date
    [YYYY-MM-DD] of a date, and [NaT] when there is none. *)
Theorem top_reviews_spec (df : frame) :
  length (top_reviews df) = Nat.min 12 (length df) /\
  (exists rest,
      Permutation df (top_reviews_raw df ++ rest) /\
      forall a b, In a (top_reviews_raw df) -> In b rest ->
                  thumbs_up_count b <= thumbs_up_count a) /\
  StronglySorted (fun a b => thumbs_up_count b <= thumbs_up_count a)
    (top_reviews_raw df) /\
  (forall v, exists rest,
      filter (fun rv => thumbs_up_count rv =? v) df
      = filter (fun rv => thumbs_up_count rv =? v) (top_reviews_raw df) ++ rest) /\
  (forall before rv after,
      df = before ++ rv :: after ->
      (forall rv', In rv' (before ++ after) ->
                   thumbs_up_count rv' < thumbs_up_count rv) ->
      exists others, top_reviews_raw df = rv :: others) /\
  Forall2
    (fun rv t =>
       tr_thumbs t = thumbs_up_count rv /\
       tr_rating t = rating rv /\
       tr_author t = firstn 30 (match author rv with
                                | Some a => a
                                | None => lit "Anonymous"
                                end) /\
       tr_text t = firstn 300 (text rv) /\
       tr_date t = firstn 10 (str_of_date (review_date rv)) /\
       match review_date rv with
       | Some d =>
           0 <= ts_year d <= 9999 -> 1 <= ts_month d <= 12 ->
           1 <= ts_day d <= 31 ->
           tr_date t = iso_date (ts_year d) (ts_month d) (ts_day d)
       | None => tr_date t = lit "NaT"
       end /\
       (length (tr_author t) <= 30)%nat /\
       (length (tr_date t) <= 10)%nat /\
       (length (tr_text t) <= 300)%nat)
    (top_reviews_raw df) (top_reviews df) /\
  StronglySorted (fun a b => tr_thumbs b <= tr_thumbs a) (top_reviews df).
Proof.
  set (sorted := stable_sort (fun a b => thumbs_up_count b <=? thumbs_up_count a) df).
  assert (Hraw : top_reviews_raw df = firstn 12 sorted) by reflexivity.
  assert (Hsorted : StronglySorted
                      (fun a b => thumbs_up_count b <= thumbs_up_count a) sorted)
    by apply sort_desc_sorted.
  assert (Hperm : Permutation sorted df) by apply stable_sort_perm.
  split; [| split; [| split; [| split; [| split; [| split]]]]].
  - unfold top_reviews. rewrite length_map, Hraw, length_firstn.
    unfold sorted. rewrite stable_sort_length. reflexivity.
  - exists (skipn 12 sorted). rewrite Hraw, firstn_skipn. split.
    + apply Permutation_sym, Hperm.
    + intros a b Ha Hb. exact (sorted_split _ 12 sorted Hsorted a b Ha Hb).
  - rewrite Hraw. exact (firstn_sorted _ 12 sorted Hsorted).
  - intros v. rewrite Hraw.
    rewrite <- (sort_desc_stable thumbs_up_count v df). fold sorted.
    apply filter_firstn_prefix.
  - intros before rv after Hdf Hmax.
    assert (Hin : In rv sorted).
    { apply (Permutation_in _ (Permutation_sym Hperm)).
      rewrite Hdf. apply in_or_app. right. left. reflexivity. }
    rewrite Hraw.
    destruct sorted as [| h tl] eqn:Es; [destruct Hin |].
    exists (firstn 11 tl). change (firstn 12 (h :: tl)) with (h :: firstn 11 tl).
    f_equal.
    assert (Hh : In h df).
    { apply (Permutation_in _ Hperm). left. reflexivity. }
    rewrite Hdf in Hh. apply in_app_or in Hh.
    assert (Hge : thumbs_up_count rv <= thumbs_up_count h).
    { destruct Hin as [<- | Hin]; [lia |].
      inversion Hsorted as [| ? ? _ Hall]; subst.
      rewrite Forall_forall in Hall. auto. }
    destruct Hh as [Hh | [Hh | Hh]]; [| exact (eq_sym Hh) |].
    + assert (thumbs_up_count h < thumbs_up_count rv)
        by (apply Hmax, in_or_app; auto).
      lia.
    + assert (thumbs_up_count h < thumbs_up_count rv)
        by (apply Hmax, in_or_app; auto).
      lia.
  - unfold top_reviews. apply Forall2_map_right. intros rv _.
    unfold project, fill_author, slice_to. cbn [tr_thumbs tr_rating tr_author tr_text tr_date].
    split; [reflexivity |]. split; [reflexivity |].
    split; [reflexivity |]. split; [reflexivity |].
    split; [reflexivity |].
    split.
    { destruct (review_date rv) as [d |]; [| reflexivity].
      intros Hy Hm Hd. unfold str_of_date.
      rewrite fmt_ymd_iso by lia. reflexivity. }
    split; [apply (slice_to_length 30) |].
    split; [apply (slice_to_length 10) | apply (slice_to_length 300)].
  - unfold top_reviews. rewrite Hraw.
    apply sorted_map. exact (firstn_sorted _ 12 sorted Hsorted).
Qed.

Lemma top_reviews_spec_witness :
  (exists t ts,
      top_reviews Examples.five = t :: ts /\
      tr_thumbs t = 9 /\ tr_rating t = 1 /\
      tr_author t = lit "Anonymous" /\
      tr_text t = lit "service mauvais driver" /\
      tr_date t = lit "2025-12-05") /\
  map tr_thumbs (top_reviews Examples.five) = [9; 7; 7; 3; 0] /\
  map tr_author (top_reviews Examples.five)
  = [lit "Anonymous"; lit "Bob"; lit "Al"; lit "Anonymous"; lit "Anonymous"] /\
  map tr_date (top_reviews Examples.undated) = [lit "NaT"].
Proof.
  destruct (top_reviews_spec Examples.five)
    as (_ & _ & _ & _ & Hfirst & Hrows & _).
  destruct (Hfirst (firstn 4 Examples.five)
              (Examples.row None 1 (lit "service mauvais driver") 2025 12 9) [])
    as (others & Hraw).
  { reflexivity. }
  { intros rv' Hin. simpl in Hin.
    repeat (destruct Hin as [<- | Hin]; [vm_compute; reflexivity |]).
    destruct Hin. }
  rewrite Hraw in Hrows.
  destruct (top_reviews Examples.five) as [| t ts] eqn:Et;
    [inversion Hrows |].
  apply Forall2_cons_iff in Hrows.
  destruct Hrows as ((Hth & Hrt & Hau & Htx & _ & Hdt & _) & _).
  rewrite <- Et.
  split.
  - exists t, ts. split; [exact Et |].
    split; [exact Hth |]. split; [exact Hrt |].
    split; [exact Hau |]. split; [exact Htx |].
    apply Hdt; simpl; lia.
  - split; [vm_compute; reflexivity |].
    split; vm_compute; reflexivity.
Defined.

(** ** Strings of integers and dictionaries *)

Lemma str_eqb_refl (s : str) : Str.eqb s s = true.
Proof. apply str_eqb_eq. reflexivity. Qed.

Lemma str_eqb_neq (s t : str) : s <> t -> Str.eqb s t = false.
Proof.
  intros H. destruct (Str.eqb s t) eqn:E; [| reflexivity].
  apply str_eqb_eq in E. contradiction.
Qed.


Lemma digit_val_digit (d : Z) : 0 <= d < 10 -> digit_val (digit d) = d.
Proof. unfold digit_val, digit. intros H. lia. Qed.

Lemma digit_is_digit (d : Z) : 0 <= d < 10 -> is_digit (digit d).
Proof. unfold is_digit, digit. intros H. lia. Qed.

Lemma digits_fuel_decimal (fuel : nat) :
  forall z acc, 0 <= z < 2 ^ Z.of_nat fuel ->
    decimal 0 (digits_fuel fuel z acc) = decimal z acc.
Proof.
  induction fuel as [| fuel IH]; intros z acc Hz.
  - simpl in *. assert (z = 0) by lia. subst. reflexivity.
  - cbn [digits_fuel]. destruct (z <? 10) eqn:E.
    + unfold decimal. cbn [fold_left]. rewrite digit_val_digit by lia.
      f_equal; lia.
    + rewrite Nat2Z.inj_succ, Z.pow_succ_r in Hz by lia.
      assert (Hdiv : 0 <= z / 10 < 2 ^ Z.of_nat fuel).
      { split; [apply Z.div_pos; lia |].
        apply Z.div_lt_upper_bound; lia. }
      rewrite (IH _ _ Hdiv). unfold decimal. cbn [fold_left].
      rewrite digit_val_digit by (apply Z.mod_pos_bound; lia).
      f_equal; rewrite (Z.div_mod z 10) at 3 by lia; reflexivity.
Qed.

Lemma digits_fuel_digits (fuel : nat) :
  forall z acc, 0 <= z -> Forall is_digit acc ->
    Forall is_digit (digits_fuel fuel z acc).
Proof.
  induction fuel as [| fuel IH]; intros z acc Hz Hacc; [exact Hacc |].
  cbn [digits_fuel]. destruct (z <? 10) eqn:E.
  - constructor; [apply digit_is_digit; lia | exact Hacc].
  - apply IH; [apply Z.div_pos; lia |].
    constructor; [apply digit_is_digit, Z.mod_pos_bound; lia | exact Hacc].
Qed.

Lemma of_nonneg_decimal (z : Z) : 0 <= z -> decimal 0 (of_nonneg z) = z.
Proof.
  intros Hz. unfold of_nonneg. rewrite digits_fuel_decimal; [reflexivity |].
  split; [exact Hz |].
  rewrite Nat2Z.inj_succ, Z2Nat.id by apply Z.log2_nonneg.
  destruct (Z.eq_dec z 0) as [-> | Hnz]; [reflexivity |].
  apply Z.log2_spec. lia.
Qed.

Lemma of_nonneg_digits (z : Z) : 0 <= z -> Forall is_digit (of_nonneg z).
Proof. intros Hz. apply digits_fuel_digits; [exact Hz | constructor]. Qed.

(** [str] is one-to-one on ints. *)
Lemma str_of_int_inj (a b : Z) : str_of_int a = str_of_int b -> a = b.
Proof.
  unfold str_of_int.
  destruct (a <? 0) eqn:Ea, (b <? 0) eqn:Eb; intros H.
  - injection H as H. apply (f_equal (decimal 0)) in H.
    rewrite !of_nonneg_decimal in H by lia. lia.
  - assert (Hd := of_nonneg_digits b ltac:(lia)). rewrite <- H in Hd.
    inversion Hd as [| ? ? Hc _]. unfold is_digit in Hc. lia.
  - assert (Hd := of_nonneg_digits a ltac:(lia)). rewrite H in Hd.
    inversion Hd as [| ? ? Hc _]. unfold is_digit in Hc. lia.
  - apply (f_equal (decimal 0)) in H.
    rewrite !of_nonneg_decimal in H by lia. exact H.
Qed.

Section DictFacts.

Context {V : Type}.

Lemma dict_get_set_same (k : str) (v : V) (d : list (str * V)) :
  dict_get k (dict_set k v d) = Some v.
Proof.
  induction d as [| [k' v'] d IH]; simpl.
  - rewrite str_eqb_refl. reflexivity.
  - destruct (Str.eqb k k') eqn:E; simpl.
    + rewrite str_eqb_refl. reflexivity.
    + rewrite E. exact IH.
Qed.

Lemma dict_get_set_other (k k' : str) (v : V) (d : list (str * V)) :
  k <> k' -> dict_get k (dict_set k' v d) = dict_get k d.
Proof.
  intros Hne.
  induction d as [| [k0 v0] d IH]; simpl.
  - rewrite str_eqb_neq by exact Hne. reflexivity.
  - destruct (Str.eqb k' k0) eqn:E; simpl.
    + apply str_eqb_eq in E. subst k0.
      rewrite str_eqb_neq by exact Hne. reflexivity.
    + destruct (Str.eqb k k0); [reflexivity | exact IH].
Qed.

Lemma dict_set_in (k k0 : str) (v v0 : V) (d : list (str * V)) :
  In (k0, v0) (dict_set k v d) -> (k0, v0) = (k, v) \/ In (k0, v0) d.
Proof.
  induction d as [| [k' v'] d IH]; simpl.
  - intros [H | []]. left. symmetry. exact H.
  - destruct (Str.eqb k k'); simpl; intros [H | H]; auto.
    destruct (IH H); auto.
Qed.

Variable key : Z -> str.
Variable val : Z -> V.
Hypothesis key_inj : forall a b, key a = key b -> a = b.

Let step (d : list (str * V)) (y : Z) := dict_set (key y) (val y) d.

Lemma dict_fold_in (l : list Z) :
  forall d k v, In (k, v) (fold_left step l d) ->
    In (k, v) d \/ exists y, In y l /\ k = key y /\ v = val y.
Proof.
  induction l as [| a l IH]; intros d k v H; simpl in *; [auto |].
  destruct (IH _ _ _ H) as [Hd | (y & Hy & Hk & Hv)].
  - destruct (dict_set_in _ _ _ _ _ Hd) as [E | Hin]; [| auto].
    injection E as -> ->. right. exists a. auto.
  - right. exists y. auto.
Qed.

Lemma dict_fold_get_other (l : list Z) :
  forall d k, (forall y, In y l -> key y <> k) ->
    dict_get k (fold_left step l d) = dict_get k d.
Proof.
  induction l as [| a l IH]; intros d k H; simpl; [reflexivity |].
  rewrite IH by (intros y Hy; apply H; right; exact Hy).
  unfold step. apply dict_get_set_other.
  intros E. apply (H a); [left; reflexivity | symmetry; exact E].
Qed.

Lemma dict_fold_get (l : list Z) :
  forall d y, In y l ->
    dict_get (key y) (fold_left step l d) = Some (val y).
Proof.
  induction l as [| a l IH]; intros d y Hy; [destruct Hy |].
  simpl. destruct (in_dec Z.eq_dec y l) as [Hin | Hnin]; [auto |].
  destruct Hy as [-> | Hy]; [| contradiction].
  rewrite dict_fold_get_other.
  - apply dict_get_set_same.
  - intros z Hz E. apply key_inj in E. subst z. contradiction.
Qed.

End DictFacts.

(** ** Distinct values and counts *)

Section GroupingFacts.

Context {K : Type}.
Variable eqb : K -> K -> bool.
Hypothesis eqb_eq : forall a b, eqb a b = true <-> a = b.

Lemma mem_in (k : K) (l : list K) : mem eqb k l = true <-> In k l.
Proof.
  unfold mem. rewrite existsb_exists. split.
  - intros (x & Hx & E). apply eqb_eq in E. subst. exact Hx.
  - intros H. exists k. split; [exact H | apply eqb_eq; reflexivity].
Qed.

Lemma unique_acc_in (l : list K) :
  forall seen k, In k (unique_acc eqb seen l) <-> In k l /\ ~ In k seen.
Proof.
  induction l as [| a l IH]; intros seen k; simpl; [tauto |].
  destruct (mem eqb a seen) eqn:E.
  - apply mem_in in E. rewrite IH. split.
    + intros [H1 H2]. auto.
    + intros [[-> | H1] H2]; [contradiction | auto].
  - assert (Hn : ~ In a seen) by (rewrite <- mem_in, E; discriminate).
    simpl. rewrite IH. simpl. split.
    + intros [<- | [H1 H2]]; [auto |]. split; [auto | tauto].
    + intros [[<- | H1] H2]; [auto |].
      destruct (eqb a k) eqn:Ek.
      * left. apply eqb_eq. exact Ek.
      * right. split; [exact H1 |]. intros [<- | H]; [| contradiction].
        assert (eqb a a = true) by (apply eqb_eq; reflexivity). congruence.
Qed.

Lemma unique_acc_nodup (l : list K) :
  forall seen, NoDup (unique_acc eqb seen l).
Proof.
  induction l as [| a l IH]; intros seen; simpl; [constructor |].
  destruct (mem eqb a seen); [apply IH |].
  constructor; [| apply IH].
  rewrite unique_acc_in. simpl. tauto.
Qed.

Lemma unique_in (k : K) (l : list K) : In k (unique eqb l) <-> In k l.
Proof. unfold unique. rewrite unique_acc_in. simpl. tauto. Qed.

Lemma unique_nodup (l : list K) : NoDup (unique eqb l).
Proof. apply unique_acc_nodup. Qed.

Lemma count_key_pos (k : K) (l : list K) :
  0 < count_key eqb k l <-> In k l.
Proof.
  unfold count_key. induction l as [| a l IH]; simpl; [split; [lia | tauto] |].
  destruct (eqb k a) eqn:E; simpl.
  - apply eqb_eq in E. subst. split; [auto | lia].
  - rewrite IH. split; [auto |]. intros [-> | H]; [| exact H].
    assert (eqb k k = true) by (apply eqb_eq; reflexivity). congruence.
Qed.

(** Looking a key up in a table built key by key. *)
Lemma lookup_tabulate (f : K -> Z) (l : list K) (k : K) :
  lookup eqb k (map (fun x => (x, f x)) l)
  = if mem eqb k l then Some (f k) else None.
Proof.
  induction l as [| a l IH]; simpl; [reflexivity |].
  destruct (eqb k a) eqn:E; simpl; [| exact IH].
  apply eqb_eq in E. subst. reflexivity.
Qed.

Lemma lookup_in (s : list (K * Z)) (k : K) (v : Z) :
  NoDup (map fst s) -> In (k, v) s -> lookup eqb k s = Some v.
Proof.
  induction s as [| [k' v'] s IH]; simpl; intros Hnd Hin; [destruct Hin |].
  inversion Hnd as [| ? ? Hnotin Hnd']; subst.
  destruct Hin as [E | Hin].
  - injection E as -> ->.
    assert (eqb k k = true) by (apply eqb_eq; reflexivity).
    rewrite H. reflexivity.
  - destruct (eqb k k') eqn:E; [| auto].
    apply eqb_eq in E. subst k'. exfalso. apply Hnotin.
    apply in_map_iff. exists (k, v). auto.
Qed.

End GroupingFacts.

Lemma sum_list_add {A : Type} (f g : A -> Z) (l : list A) :
  sum_list (map (fun k => f k + g k) l)
  = sum_list (map f l) + sum_list (map g l).
Proof. induction l as [| a l IH]; simpl; lia. Qed.

Lemma sum_list_app (l1 l2 : list Z) :
  sum_list (l1 ++ l2) = sum_list l1 + sum_list l2.
Proof. induction l1 as [| a l1 IH]; simpl; lia. Qed.

(** Exactly one key of a duplicate-free list equals a given member. *)
Lemma sum_indicator (x : Z) (ks : list Z) :
  NoDup ks ->
  sum_list (map (fun k => if x =? k then 1 else 0) ks)
  = if in_dec Z.eq_dec x ks then 1 else 0.
Proof.
  induction 1 as [| a ks Hnotin Hnd IH]; simpl; [reflexivity |].
  rewrite IH.
  destruct (Z.eq_dec a x) as [-> | Hne].
  - rewrite Z.eqb_refl. destruct (in_dec Z.eq_dec x ks); [contradiction | lia].
  - destruct (x =? a) eqn:E; [lia |].
    destruct (in_dec Z.eq_dec x ks); reflexivity.
Qed.

Lemma count_where_cons (p : review -> bool) (rv : review) (df : frame) :
  count_where p (rv :: df) = (if p rv then 1 else 0) + count_where p df.
Proof.
  unfold count_where. simpl. destruct (p rv); simpl length; lia.
Qed.

Lemma count_where_nonneg (p : review -> bool) (df : frame) :
  0 <= count_where p df.
Proof. unfold count_where. lia. Qed.

(** The counts by value of a column add up to the number of rows, when
    the values listed are distinct and cover the column. *)
Lemma sum_counts (f : review -> Z) (ks : list Z) (df : frame) :
  NoDup ks ->
  (forall rv, In rv df -> In (f rv) ks) ->
  sum_list (map (fun k => count_where (fun rv => f rv =? k) df) ks) = total df.
Proof.
  intros Hnd. induction df as [| rv df IH]; intros Hcov.
  - unfold total. simpl length. clear.
    induction ks as [| a ks IH]; [reflexivity | exact IH].
  - erewrite map_ext by (intros k; apply count_where_cons).
    rewrite sum_list_add, IH by (intros; apply Hcov; right; assumption).
    rewrite sum_indicator by exact Hnd.
    destruct (in_dec Z.eq_dec (f rv) ks) as [_ | Hn].
    + unfold total. simpl length. lia.
    + exfalso. apply Hn, Hcov. left. reflexivity.
Qed.

Lemma count_where_and (p q : review -> bool) (df : frame) :
  count_where (fun rv => p rv && q rv) df = count_where q (filter p df).
Proof.
  unfold count_where. f_equal.
  induction df as [| rv df IH]; simpl; [reflexivity |].
  destruct (p rv); simpl; [destruct (q rv); simpl |]; rewrite IH; reflexivity.
Qed.

(** ** Rating histograms *)

Lemma stars_nodup : NoDup stars.
Proof.
  unfold stars. repeat constructor; simpl; intros H;
    repeat (destruct H as [H | H]; [discriminate |]); exact H.
Qed.

Lemma rating_dist_sum (sub : frame) :
  (forall rv, In rv sub -> 1 <= rating rv <= 5) ->
  sum_list (rating_dist sub) = total sub.
Proof.
  intros H. unfold rating_dist. apply sum_counts; [apply stars_nodup |].
  intros rv Hrv. specialize (H rv Hrv). unfold stars. simpl.
  assert (rating rv = 1 \/ rating rv = 2 \/ rating rv = 3
          \/ rating rv = 4 \/ rating rv = 5) by lia.
  intuition.
Qed.

Lemma Z_eqb_eq (a b : Z) : (a =? b) = true <-> a = b.
Proof. apply Z.eqb_eq. Qed.

Lemma sorted_years_in (y : Z) (df : frame) :
  In y (sorted_years df) <-> exists rv, In rv df /\ review_year rv = y.
Proof.
  unfold sorted_years.
  rewrite stable_sort_in, (unique_in Z.eqb Z_eqb_eq), in_map_iff.
  split; intros (rv & H1 & H2); exists rv; auto.
Qed.

Lemma sorted_years_nodup (df : frame) : NoDup (sorted_years df).
Proof. apply stable_sort_nodup, (unique_nodup Z.eqb Z_eqb_eq). Qed.

Lemma full_years_in (now_year y : Z) (df : frame) :
  In y (full_years now_year df)
  <-> (exists rv, In rv df /\ review_year rv = y) /\ y < now_year.
Proof.
  unfold full_years. rewrite filter_In, sorted_years_in, Z.ltb_lt.
  reflexivity.
Qed.

(** C6: with every rating in 1..5, the five buckets of the overall
    histogram add up to the number of records, and the per-year dictionary
    holds, for exactly the observed years before the current one, the
    histogram of that year's records, whose buckets add up to the number of
    records of the year. *)
Theorem rating_histograms_sum (now_year : Z) (df : frame) :
  (forall rv, In rv df -> 1 <= rating rv <= 5) ->
  length (rating_all df) = 5%nat /\
  sum_list (rating_all df) = total df /\
  (forall y, In y (full_years now_year df)
             <-> (exists rv, In rv df /\ review_year rv = y) /\ y < now_year) /\
  (forall y, In y (full_years now_year df) ->
     dict_get (str_of_int y) (rating_by_year now_year df)
     = Some (rating_dist (year_slice y df)) /\
     sum_list (rating_dist (year_slice y df)) = total (year_slice y df)) /\
  (forall k v, In (k, v) (rating_by_year now_year df) ->
     exists y, In y (full_years now_year df) /\ k = str_of_int y /\
               v = rating_dist (year_slice y df)).
Proof.
  intros Hr.
  assert (Hslice : forall y rv, In rv (year_slice y df) -> 1 <= rating rv <= 5).
  { intros y rv Hin. apply filter_In in Hin. apply Hr, Hin. }
  split; [reflexivity |].
  split; [apply rating_dist_sum, Hr |].
  split; [intros y; apply full_years_in |].
  split.
  - intros y Hy. split; [| apply rating_dist_sum, Hslice].
    unfold rating_by_year.
    apply (dict_fold_get str_of_int (fun y => rating_dist (year_slice y df))
             str_of_int_inj).
    exact Hy.
  - intros k v Hin. unfold rating_by_year in Hin.
    apply (dict_fold_in str_of_int (fun y => rating_dist (year_slice y df))
             str_of_int_inj) in Hin.
    destruct Hin as [[] | (y & Hy & -> & ->)].
    exists y. split; [exact Hy | split; reflexivity].
Qed.

Lemma rating_histograms_sum_witness :
  sum_list (rating_all Examples.five) = 5 /\
  dict_get (str_of_int 2023) (rating_by_year 2025 Examples.five)
  = Some [0; 0; 0; 1; 1].
Proof.
  assert (Hr : forall rv, In rv Examples.five -> 1 <= rating rv <= 5).
  { intros rv Hin. simpl in Hin.
    repeat (destruct Hin as [<- | Hin]; [simpl; lia |]). destruct Hin. }
  destruct (rating_histograms_sum 2025 Examples.five Hr)
    as (_ & Hall & Hfull & Hget & _).
  split; [exact Hall |].
  refine (proj1 (Hget 2023 _)).
  apply Hfull. split; [| lia].
  eexists. split; [left; reflexivity | reflexivity].
Defined.

(** ** Monthly volumes *)

Lemma index_tabulate {V : Type} (f : str -> V) (l : list str) :
  index_of (map (fun k => (k, f k)) l) = l.
Proof.
  unfold index_of. rewrite map_map. simpl. apply map_id.
Qed.

Lemma monthly_index_perm (df : frame) :
  Permutation (index_of (monthly_all df)) (unique Str.eqb (map ym df)).
Proof.
  unfold monthly_all, sort_index, index_of.
  eapply perm_trans; [apply Permutation_map, stable_sort_perm |].
  unfold ym_sizes, groupby_size.
  change (map fst (map ?g ?l)) with (index_of (map g l)).
  rewrite index_tabulate. apply stable_sort_perm.
Qed.

Lemma monthly_index_nodup (df : frame) : NoDup (index_of (monthly_all df)).
Proof.
  eapply Permutation_NoDup;
    [apply Permutation_sym, monthly_index_perm |
     apply (unique_nodup Str.eqb str_eqb_eq)].
Qed.

Lemma monthly_index_in (df : frame) (k : str) :
  In k (index_of (monthly_all df)) <-> exists rv, In rv df /\ ym rv = k.
Proof.
  split.
  - intros H. apply (Permutation_in _ (monthly_index_perm df)) in H.
    apply (proj1 (unique_in Str.eqb str_eqb_eq _ _)) in H.
    apply in_map_iff in H.
    destruct H as (rv & H1 & H2). exists rv. auto.
  - intros (rv & H1 & H2).
    apply (Permutation_in _ (Permutation_sym (monthly_index_perm df))).
    apply (unique_in Str.eqb str_eqb_eq), in_map_iff. exists rv. auto.
Qed.

(** The size of a month's group is the number of rows carrying its key. *)
Lemma count_key_ym (k : str) (sub : frame) :
  count_key Str.eqb k (map ym sub)
  = count_where (fun rv => Str.eqb k (ym rv)) sub.
Proof.
  unfold count_key, count_where.
  rewrite filter_map_comm, length_map. reflexivity.
Qed.

Lemma ym_sizes_lookup (k : str) (sub : frame) :
  match lookup Str.eqb k (ym_sizes sub) with
  | Some v => v
  | None => 0
  end = count_where (fun rv => Str.eqb k (ym rv)) sub.
Proof.
  unfold ym_sizes, groupby_size.
  rewrite (lookup_tabulate Str.eqb str_eqb_eq), <- count_key_ym.
  destruct (mem Str.eqb k _) eqn:E; [reflexivity |].
  destruct (Z.eq_dec (count_key Str.eqb k (map ym sub)) 0) as [-> | Hne];
    [reflexivity |].
  assert (Hpos : 0 < count_key Str.eqb k (map ym sub))
    by (unfold count_key in *; lia).
  apply (count_key_pos Str.eqb str_eqb_eq) in Hpos.
  apply (proj2 (unique_in Str.eqb str_eqb_eq _ _)) in Hpos.
  apply (proj2 (stable_sort_in Str.leb _ _)) in Hpos.
  apply (proj2 (mem_in Str.eqb str_eqb_eq _ _)) in Hpos. congruence.
Qed.

Lemma monthly_all_lookup (k : str) (df : frame) :
  In k (index_of (monthly_all df)) ->
  lookup Str.eqb k (monthly_all df)
  = Some (count_where (fun rv => Str.eqb k (ym rv)) df).
Proof.
  intros Hk.
  apply (lookup_in Str.eqb str_eqb_eq); [apply monthly_index_nodup |].
  unfold monthly_all, sort_index. apply stable_sort_in.
  unfold ym_sizes, groupby_size. apply in_map_iff.
  exists k. split; [rewrite count_key_ym; reflexivity |].
  apply stable_sort_in.
  apply (Permutation_in _ (monthly_index_perm df)), Hk.
Qed.

Lemma reindex_lookup (k : str) (index : list str) (sub : frame) :
  In k index ->
  lookup Str.eqb k (reindex Str.eqb index (ym_sizes sub))
  = Some (count_where (fun rv => Str.eqb k (ym rv)) sub).
Proof.
  intros Hk. unfold reindex.
  rewrite (lookup_tabulate Str.eqb str_eqb_eq
             (fun k => match lookup Str.eqb k (ym_sizes sub) with
                       | Some v => v
                       | None => 0
                       end)).
  apply (mem_in Str.eqb str_eqb_eq) in Hk. rewrite Hk, ym_sizes_lookup.
  reflexivity.
Qed.

(** Every row is positive, negative or neutral, and only one of these. *)
Lemma count_by_sentiment (p : review -> bool) (df : frame) :
  count_where p (filter is_positive df)
  + count_where p (filter is_negative df)
  + count_where p (filter is_neutral df)
  = count_where p df.
Proof.
  rewrite <- !count_where_and.
  induction df as [| rv df IH]; [reflexivity |].
  rewrite !count_where_cons, <- IH.
  unfold is_positive, is_negative, is_neutral.
  destruct (sentiment rv), (p rv); cbn [sentiment_eqb andb]; lia.
Qed.

(** C5: the positive and the negative monthly series carry exactly the
    index of the overall series, which lists each observed year-month key
    once; at every key they hold the number of positive and of negative
    records of that month (0 when there is none), and these two, together
    with the neutral records counted in neither, make up the month's
    total. *)
Theorem monthly_series_split (df : frame) :
  index_of (monthly_pos df) = index_of (monthly_all df) /\
  index_of (monthly_neg df) = index_of (monthly_all df) /\
  NoDup (index_of (monthly_all df)) /\
  (forall k, In k (index_of (monthly_all df))
             <-> exists rv, In rv df /\ ym rv = k) /\
  (forall k, In k (index_of (monthly_all df)) ->
     exists a p n,
       lookup Str.eqb k (monthly_all df) = Some a /\
       lookup Str.eqb k (monthly_pos df) = Some p /\
       lookup Str.eqb k (monthly_neg df) = Some n /\
       a = count_where (fun rv => Str.eqb k (ym rv)) df /\
       p = count_where (fun rv => Str.eqb k (ym rv)) (filter is_positive df) /\
       n = count_where (fun rv => Str.eqb k (ym rv)) (filter is_negative df) /\
       a = p + n
           + count_where (fun rv => Str.eqb k (ym rv)) (filter is_neutral df) /\
       p + n <= a).
Proof.
  split; [apply index_tabulate |].
  split; [apply index_tabulate |].
  split; [apply monthly_index_nodup |].
  split; [apply monthly_index_in |].
  intros k Hk.
  exists (count_where (fun rv => Str.eqb k (ym rv)) df),
    (count_where (fun rv => Str.eqb k (ym rv)) (filter is_positive df)),
    (count_where (fun rv => Str.eqb k (ym rv)) (filter is_negative df)).
  assert (Hsum := count_by_sentiment (fun rv => Str.eqb k (ym rv)) df).
  assert (Hneu := count_where_nonneg (fun rv => Str.eqb k (ym rv))
                    (filter is_neutral df)).
  split; [apply monthly_all_lookup, Hk |].
  split; [apply reindex_lookup, Hk |].
  split; [apply reindex_lookup, Hk |].
  repeat split; lia.
Qed.

Lemma monthly_series_split_witness :
  exists a p n,
    lookup Str.eqb (lit "2024-02") (monthly_all Examples.five) = Some a /\
    lookup Str.eqb (lit "2024-02") (monthly_pos Examples.five) = Some p /\
    lookup Str.eqb (lit "2024-02") (monthly_neg Examples.five) = Some n /\
    p + n <= a.
Proof.
  destruct (monthly_series_split Examples.five) as (_ & _ & _ & Hin & Hk).
  destruct (Hk (lit "2024-02")) as (a & p & n & Ha & Hp & Hn & _ & _ & _ & _ & Hle).
  - apply Hin. eexists. split; [right; right; left; reflexivity | reflexivity].
  - exists a, p, n. auto.
Defined.

(** ** Heatmap *)

Lemma combine_seq_snd {A : Type} (l : list A) :
  forall s, map snd (combine (map Z.of_nat (seq s (length l))) l) = l.
Proof.
  induction l as [| a l IH]; intros s; simpl; [reflexivity |].
  rewrite IH. reflexivity.
Qed.



Lemma enumerate_snd {A : Type} (l : list A) : map snd (enumerate l) = l.
Proof. apply combine_seq_snd. Qed.



Lemma hm_months_nodup : NoDup hm_months.
Proof.
  unfold hm_months. repeat constructor; simpl; intros H;
    repeat (destruct H as [H | H]; [discriminate |]); exact H.
Qed.

Lemma hm_months_in (mo : Z) : In mo hm_months <-> 1 <= mo <= 12.
Proof.
  unfold hm_months. simpl. split; [intuition lia |].
  intros H.
  assert (mo = 1 \/ mo = 2 \/ mo = 3 \/ mo = 4 \/ mo = 5 \/ mo = 6 \/ mo = 7
          \/ mo = 8 \/ mo = 9 \/ mo = 10 \/ mo = 11 \/ mo = 12) by lia.
  intuition.
Qed.



Section HeatmapFacts.

Variable pow : float -> float -> float.

Lemma hm_data_unfold (df : frame) :
  hm_data pow df
  = flat_map (fun '(yi, yr) => year_cells pow df yi yr) (enumerate (hm_years df)).
Proof. reflexivity. Qed.


Lemma sum_flat_map {A : Type} (f : A -> list hm_cell) (l : list A) :
  sum_list (map hm_v (flat_map f l))
  = sum_list (map (fun a => sum_list (map hm_v (f a))) l).
Proof.
  induction l as [| a l IH]; simpl; [reflexivity |].
  rewrite map_app, sum_list_app, IH. reflexivity.
Qed.

Lemma cell_at_sum (df : frame) (yi yr mi mo : Z) :
  sum_list (map hm_v (cell_at pow df yi yr mi mo)) = cell_count yr mo df.
Proof.
  unfold cell_at.
  assert (H := count_where_nonneg
                 (fun rv => (review_year rv =? yr) && (review_month rv =? mo))
                 df).
  fold (cell_count yr mo df) in H.
  destruct (cell_count yr mo df >? 0) eqn:E; simpl; lia.
Qed.



End HeatmapFacts.

Section HeatmapCoordinates.

Variable pow : float -> float -> float.
Variable df : frame.







End HeatmapCoordinates.






(** ** Dependence of the output on the clock *)





(** ** The load step *)

Module LoaderFacts.

Import Loader.















End LoaderFacts.




(** * Further properties of the pipeline *)

(** ** Counting by key *)

Lemma sum_list_perm (l l' : list Z) :
  Permutation l l' -> sum_list l = sum_list l'.
Proof. induction 1; simpl; lia. Qed.

Section CountingFacts.

Context {K : Type}.
Variable eqb : K -> K -> bool.
Hypothesis eqb_eq : forall a b, eqb a b = true <-> a = b.

Lemma eqb_refl_true (a : K) : eqb a a = true.
Proof. apply eqb_eq. reflexivity. Qed.

Lemma sum_key_indicator (a : K) (ks : list K) :
  NoDup ks -> In a ks ->
  sum_list (map (fun k => if eqb k a then 1 else 0) ks) = 1.
Proof.
  induction 1 as [| k ks Hnotin Hnd IH]; intros Hin; [destruct Hin |].
  simpl. destruct Hin as [-> | Hin].
  - rewrite eqb_refl_true.
    assert (H0 : sum_list (map (fun k => if eqb k a then 1 else 0) ks) = 0).
    { clear IH Hnd. induction ks as [| k ks IH]; simpl; [reflexivity |].
      destruct (eqb k a) eqn:E.
      - apply eqb_eq in E. subst. exfalso. apply Hnotin. left. reflexivity.
      - apply IH. intros H. apply Hnotin. right. exact H. }
    lia.
  - destruct (eqb k a) eqn:E.
    + apply eqb_eq in E. subst. contradiction.
    + rewrite IH by exact Hin. reflexivity.
Qed.

(** The group sizes over distinct keys that cover a column add up to its
    length. *)
Lemma sum_count_key (ks l : list K) :
  NoDup ks -> (forall x, In x l -> In x ks) ->
  sum_list (map (fun k => count_key eqb k l) ks) = Z.of_nat (length l).
Proof.
  intros Hnd. induction l as [| a l IH]; intros Hcov.
  - simpl length. clear. induction ks as [| k ks IH]; [reflexivity | exact IH].
  - transitivity
      (sum_list (map (fun k => (if eqb k a then 1 else 0) + count_key eqb k l) ks)).
    { f_equal. apply map_ext. intros k. unfold count_key. simpl.
      destruct (eqb k a); simpl length; lia. }
    rewrite sum_list_add, IH by (intros; apply Hcov; right; assumption).
    rewrite sum_key_indicator; [simpl length; lia | exact Hnd |].
    apply Hcov. left. reflexivity.
Qed.

Lemma groupby_size_sum (le : K -> K -> bool) (l : list K) :
  sum_list (map snd (groupby_size eqb le l)) = Z.of_nat (length l).
Proof.
  unfold groupby_size. rewrite map_map. simpl.
  apply sum_count_key.
  - apply stable_sort_nodup, (unique_nodup eqb eqb_eq).
  - intros x Hx. apply stable_sort_in, (unique_in eqb eqb_eq), Hx.
Qed.

Lemma groupby_size_keys (le : K -> K -> bool) (l : list K) :
  map fst (groupby_size eqb le l) = stable_sort le (unique eqb l).
Proof.
  unfold groupby_size. rewrite map_map. simpl. apply map_id.
Qed.

Lemma groupby_size_entry (le : K -> K -> bool) (l : list K) (k : K) (c : Z) :
  In (k, c) (groupby_size eqb le l) ->
  In k l /\ c = count_key eqb k l /\ 0 < c.
Proof.
  unfold groupby_size. intros H. apply in_map_iff in H.
  destruct H as (k' & E & Hin). injection E as -> <-.
  apply (proj1 (stable_sort_in le _ _)) in Hin.
  apply (proj1 (unique_in eqb eqb_eq _ _)) in Hin.
  split; [exact Hin |]. split; [reflexivity |].
  apply (count_key_pos eqb eqb_eq), Hin.
Qed.

End CountingFacts.

Lemma sorted_nodup_strict (l : list Z) :
  StronglySorted (fun a b => (a <=? b) = true) l -> NoDup l ->
  StronglySorted Z.lt l.
Proof.
  induction 1 as [| a l Hs IH Hall]; intros Hnd; constructor;
    inversion Hnd as [| ? ? Hnotin Hnd']; subst.
  - apply IH, Hnd'.
  - rewrite Forall_forall in *. intros x Hx.
    assert (a <> x) by (intros ->; contradiction).
    specialize (Hall x Hx). lia.
Qed.

Lemma sorted_years_sorted (df : frame) : StronglySorted Z.lt (sorted_years df).
Proof.
  apply sorted_nodup_strict; [| apply sorted_years_nodup].
  apply stable_sort_sorted; intros; lia.
Qed.

(** ** Yearly volumes *)

(** The yearly series lists the observed years once each in increasing
    order, which is also the year axis of the heatmap and has as many entries
    as the [n_years] KPI says; every year carries the number of its records,
    which is positive, and the yearly counts add up to the number of records. *)
Theorem yearly_volumes (df : frame) :
  map fst (yearly df) = hm_years df /\
  yearly_labels df = hm_year_labels df /\
  StronglySorted Z.lt (map fst (yearly df)) /\
  Z.of_nat (length (yearly_labels df)) = n_years df /\
  (forall y c, In (y, c) (yearly df) ->
     c = count_where (fun rv => y =? review_year rv) df /\ 0 < c) /\
  sum_list (yearly_counts df) = total df.
Proof.
  assert (Hkeys : map fst (yearly df) = sorted_years df)
    by apply groupby_size_keys.
  split; [exact Hkeys |].
  split.
  { unfold yearly_labels, hm_year_labels, hm_years.
    rewrite <- Hkeys, map_map. reflexivity. }
  split; [rewrite Hkeys; apply sorted_years_sorted |].
  split.
  { unfold yearly_labels, n_years. rewrite length_map.
    rewrite <- (length_map fst), Hkeys. unfold sorted_years.
    rewrite stable_sort_length. reflexivity. }
  split.
  - intros y c Hin.
    apply (groupby_size_entry Z.eqb Z_eqb_eq) in Hin.
    destruct Hin as (_ & -> & Hpos). split; [| exact Hpos].
    unfold count_key, count_where.
    rewrite filter_map_comm, length_map. reflexivity.
  - unfold yearly_counts, yearly.
    rewrite (groupby_size_sum Z.eqb Z_eqb_eq), length_map. reflexivity.
Qed.

(** ** KPI counts *)

Lemma rating_masks (rv : review) :
  (rating rv >=? 4) = is_positive rv /\
  (rating rv <=? 2) = is_negative rv /\
  (rating rv =? 3) = is_neutral rv.
Proof.
  unfold is_positive, is_negative, is_neutral, sentiment, sentiment_of_rating.
  destruct (rating rv >=? 4) eqn:E4, (rating rv <=? 2) eqn:E2,
    (rating rv =? 3) eqn:E3; simpl; repeat split; lia.
Qed.

Lemma count_where_ext (p q : review -> bool) (df : frame) :
  (forall rv, p rv = q rv) -> count_where p df = count_where q df.
Proof.
  intros H. unfold count_where. f_equal. f_equal. apply filter_ext. exact H.
Qed.

Lemma count_masks (df : frame) :
  count_pos df = count_where is_positive df /\
  count_neg df = count_where is_negative df /\
  count_neu df = count_where is_neutral df.
Proof.
  repeat split; apply count_where_ext; intros rv; apply rating_masks.
Qed.

(** The three KPI counts, taken with masks on the rating, are the sizes
    of the three sentiment groups and add up to the number of records. *)
Theorem kpi_counts_partition (df : frame) :
  count_pos df = count_where is_positive df /\
  count_neg df = count_where is_negative df /\
  count_neu df = count_where is_neutral df /\
  count_pos df + count_neg df + count_neu df = total df.
Proof.
  destruct (count_masks df) as (Hp & Hn & Hu).
  repeat split; try assumption.
  rewrite Hp, Hn, Hu. unfold total. clear.
  induction df as [| rv df IH]; [reflexivity |].
  rewrite !count_where_cons.
  unfold is_positive, is_negative, is_neutral in *.
  destruct (sentiment rv); cbn [sentiment_eqb]; simpl length; lia.
Qed.

(** ** Order of the month keys *)

Lemma str_leb_total (s : str) : forall t, Str.leb s t = true \/ Str.leb t s = true.
Proof.
  induction s as [| a s IH]; intros [| b t]; simpl; auto.
  destruct (N.lt_trichotomy a b) as [Hlt | [-> | Hgt]].
  - left. rewrite (proj2 (N.ltb_lt a b) Hlt). reflexivity.
  - rewrite N.ltb_irrefl, N.eqb_refl. simpl. apply IH.
  - right. rewrite (proj2 (N.ltb_lt b a) Hgt). reflexivity.
Qed.

Lemma str_leb_cons (a b : N) (s t : str) :
  Str.leb (a :: s) (b :: t) = true
  <-> (a < b)%N \/ (a = b /\ Str.leb s t = true).
Proof.
  simpl. rewrite orb_true_iff, andb_true_iff, N.ltb_lt, N.eqb_eq. reflexivity.
Qed.

Lemma str_leb_trans (s : str) :
  forall t u, Str.leb s t = true -> Str.leb t u = true -> Str.leb s u = true.
Proof.
  induction s as [| a s IH]; intros [| b t] [| c u]; try reflexivity;
    try discriminate.
  rewrite !str_leb_cons.
  intros [H1 | [-> H1]] [H2 | [-> H2]].
  - left. lia.
  - left. exact H1.
  - left. exact H2.
  - right. split; [reflexivity | eapply IH; eassumption].
Qed.

Lemma ffill_from_length (l : list float) :
  forall prev, length (ffill_from prev l) = length l.
Proof.
  induction l as [| x l IH]; intros prev; simpl; [reflexivity |].
  destruct (is_nan x); [destruct prev |]; simpl; rewrite IH; reflexivity.
Qed.

(** ** Monthly volumes, continued *)

Lemma reindex_values (index : list str) (sub : frame) :
  map snd (reindex Str.eqb index (ym_sizes sub))
  = map (fun k => count_key Str.eqb k (map ym sub)) index.
Proof.
  unfold reindex. rewrite map_map. apply map_ext. intros k. simpl.
  rewrite ym_sizes_lookup, count_key_ym. reflexivity.
Qed.

Lemma reindex_sum (df : frame) (p : review -> bool) :
  sum_list (map snd (reindex Str.eqb (index_of (monthly_all df))
                             (ym_sizes (filter p df))))
  = count_where p df.
Proof.
  rewrite reindex_values.
  rewrite (sum_count_key Str.eqb str_eqb_eq).
  - rewrite length_map. reflexivity.
  - apply monthly_index_nodup.
  - intros k Hk. apply in_map_iff in Hk. destruct Hk as (rv & <- & Hin).
    apply filter_In in Hin. apply monthly_index_in. exists rv. tauto.
Qed.

(** The month labels are in ascending order; the four other series of
    the monthly chart have one value per label; the overall volumes add up
    to the number of records and the positive and negative volumes to the
    numbers of positive and of negative records, so that no record is lost or
    counted twice by the reindexing. *)
Theorem monthly_series_aligned (df : frame) :
  StronglySorted (fun a b => Str.leb a b = true) (monthly_labels df) /\
  length (monthly_all_v df) = length (monthly_labels df) /\
  length (monthly_pos_v df) = length (monthly_labels df) /\
  length (monthly_neg_v df) = length (monthly_labels df) /\
  length (monthly_rating_v df) = length (monthly_labels df) /\
  sum_list (monthly_all_v df) = total df /\
  sum_list (monthly_pos_v df) = count_pos df /\
  sum_list (monthly_neg_v df) = count_neg df.
Proof.
  destruct (count_masks df) as (Hp & Hn & _).
  split.
  { unfold monthly_labels, index_of, monthly_all, sort_index.
    apply sorted_map. apply stable_sort_sorted.
    - intros a b. apply str_leb_total.
    - intros a b c. apply str_leb_trans. }
  unfold monthly_all_v, monthly_pos_v, monthly_neg_v, monthly_rating_v,
    monthly_labels, monthly_rating, monthly_pos, monthly_neg, index_of, reindex.
  rewrite ffill_from_length, !length_map.
  repeat (split; [reflexivity |]).
  split.
  { unfold monthly_all, sort_index.
    rewrite (sum_list_perm _ (map snd (ym_sizes df)))
      by (apply Permutation_map, stable_sort_perm).
    unfold ym_sizes.
    rewrite (groupby_size_sum Str.eqb str_eqb_eq), length_map. reflexivity. }
  split.
  - rewrite Hp. apply (reindex_sum df is_positive).
  - rewrite Hn. apply (reindex_sum df is_negative).
Qed.

(** ** Per-year histograms and the stacked bars *)

Section DictOrder.

Context {V : Type}.
Variable key : Z -> str.
Variable val : Z -> V.
Hypothesis key_inj : forall a b, key a = key b -> a = b.

Lemma dict_set_fresh (k : str) (v : V) (d : list (str * V)) :
  ~ In k (map fst d) -> dict_set k v d = d ++ [(k, v)].
Proof.
  induction d as [| [k' v'] d IH]; simpl; intros Hn; [reflexivity |].
  rewrite str_eqb_neq by (intros ->; apply Hn; left; reflexivity).
  rewrite IH by (intros H; apply Hn; right; exact H). reflexivity.
Qed.

(** Setting distinct new keys one after the other appends the entries in
    that order. *)
Lemma dict_fold_fresh (l : list Z) :
  forall d, NoDup l -> (forall y, In y l -> ~ In (key y) (map fst d)) ->
    fold_left (fun d y => dict_set (key y) (val y) d) l d
    = d ++ map (fun y => (key y, val y)) l.
Proof.
  induction l as [| a l IH]; intros d Hnd Hfresh; simpl.
  - rewrite app_nil_r. reflexivity.
  - inversion Hnd as [| ? ? Hnotin Hnd']; subst.
    rewrite dict_set_fresh by (apply Hfresh; left; reflexivity).
    rewrite IH; [rewrite <- app_assoc; reflexivity | exact Hnd' |].
    intros y Hy Hin. rewrite map_app, in_app_iff in Hin.
    destruct Hin as [Hin | [E | []]].
    + apply (Hfresh y); [right; exact Hy | exact Hin].
    + simpl in E. apply key_inj in E. subst. contradiction.
Qed.

Lemma dict_get_tabulate (l : list Z) (y : Z) :
  In y l -> dict_get (key y) (map (fun y => (key y, val y)) l) = Some (val y).
Proof.
  induction l as [| a l IH]; simpl; intros Hin; [destruct Hin |].
  destruct (Str.eqb (key y) (key a)) eqn:E.
  - apply str_eqb_eq, key_inj in E. subst. reflexivity.
  - destruct Hin as [-> | Hin]; [rewrite str_eqb_refl in E; discriminate |].
    apply IH, Hin.
Qed.

End DictOrder.

Lemma full_years_nodup (now_year : Z) (df : frame) :
  NoDup (full_years now_year df).
Proof. apply NoDup_filter, sorted_years_nodup. Qed.

Lemma sorted_filter {A : Type} (R : A -> A -> Prop) (f : A -> bool)
  (l : list A) :
  StronglySorted R l -> StronglySorted R (filter f l).
Proof.
  induction 1 as [| a l Hl IH Ha]; simpl; [constructor |].
  destruct (f a); [| exact IH].
  constructor; [exact IH |].
  rewrite Forall_forall in *. intros b Hb. apply filter_In in Hb.
  apply Ha, Hb.
Qed.

Lemma full_years_sorted (now_year : Z) (df : frame) :
  StronglySorted Z.lt (full_years now_year df).
Proof. apply sorted_filter, sorted_years_sorted. Qed.

Lemma stars_nth (r : Z) (f : Z -> Z) :
  In r stars -> nth_error (map f stars) (Z.to_nat (r - 1)) = Some (f r).
Proof.
  unfold stars. simpl.
  intros [<- | [<- | [<- | [<- | [<- | []]]]]]; reflexivity.
Qed.

(** The per-year dictionary holds one histogram per full year (an
    observed year before the current one), in strictly increasing order of
    the year whatever the order of the records, under the keys that the
    stacked chart uses as its year labels; and the stacked table is its
    transpose: the value of star [r] at the position of a year is bucket
    [r] of that year's histogram, the number of the year's records rated
    [r]. *)
Theorem stacked_transposes_rating_by_year (now_year : Z) (df : frame) :
  (exists years,
      StronglySorted Z.lt years /\
      (forall y, In y years
                 <-> y < now_year /\ exists rv, In rv df /\ review_year rv = y) /\
      map fst (rating_by_year now_year df) = map str_of_int years /\
      map snd (rating_by_year now_year df)
      = map (fun y => rating_dist (year_slice y df)) years) /\
  rating_by_year now_year df
  = map (fun y => (str_of_int y, rating_dist (year_slice y df)))
        (full_years now_year df) /\
  map fst (rating_by_year now_year df) = stacked_years now_year df /\
  (forall i y r,
     nth_error (full_years now_year df) i = Some y -> In r stars ->
     exists col hist,
       dict_get (str_of_int r) (stacked now_year df) = Some col /\
       dict_get (str_of_int y) (rating_by_year now_year df) = Some hist /\
       nth_error col i = nth_error hist (Z.to_nat (r - 1)) /\
       nth_error col i
       = Some (count_where (fun rv => rating rv =? r) (year_slice y df))).
Proof.
  assert (Hlayout : rating_by_year now_year df
                    = map (fun y => (str_of_int y, rating_dist (year_slice y df)))
                          (full_years now_year df)).
  { unfold rating_by_year.
    rewrite (dict_fold_fresh str_of_int _ str_of_int_inj);
      [reflexivity | apply full_years_nodup | intros y _ []]. }
  split.
  { exists (full_years now_year df).
    split; [apply full_years_sorted |].
    split; [| rewrite Hlayout, !map_map; split; reflexivity].
    intros y. unfold full_years. rewrite filter_In, sorted_years_in, Z.ltb_lt.
    tauto. }
  split; [exact Hlayout |].
  split; [rewrite Hlayout, map_map; reflexivity |].
  intros i y r Hy Hr.
  exists (map (fun y => count_where (fun rv => rating rv =? r) (year_slice y df))
              (full_years now_year df)),
    (rating_dist (year_slice y df)).
  split.
  { unfold stacked.
    apply (dict_get_tabulate str_of_int
             (fun r => map (fun y => count_where (fun rv => rating rv =? r)
                                       (year_slice y df))
                           (full_years now_year df))
             str_of_int_inj stars r Hr). }
  split.
  { rewrite Hlayout.
    apply (dict_get_tabulate str_of_int
             (fun y => rating_dist (year_slice y df)) str_of_int_inj).
    eapply nth_error_In, Hy. }
  assert (Hcol : nth_error
                   (map (fun y => count_where (fun rv => rating rv =? r)
                                    (year_slice y df))
                        (full_years now_year df)) i
                 = Some (count_where (fun rv => rating rv =? r) (year_slice y df))).
  { rewrite nth_error_map, Hy. reflexivity. }
  split; [| exact Hcol].
  rewrite Hcol. unfold rating_dist.
  rewrite (stars_nth r (fun r => count_where (fun rv => rating rv =? r)
                                   (year_slice y df)) Hr).
  reflexivity.
Qed.

Lemma stacked_transposes_rating_by_year_witness :
  (exists col hist,
      dict_get (str_of_int 4) (stacked 2025 (rev Examples.five)) = Some col /\
      dict_get (str_of_int 2023) (rating_by_year 2025 (rev Examples.five))
      = Some hist /\
      nth_error col 0 = nth_error hist 3 /\
      nth_error col 0 = Some 1) /\
  map review_year (rev Examples.five) = [2025; 2024; 2024; 2023; 2023] /\
  map fst (rating_by_year 2025 (rev Examples.five)) = [lit "2023"; lit "2024"] /\
  map fst (rating_by_year 2026 (rev Examples.five))
  = [lit "2023"; lit "2024"; lit "2025"].
Proof.
  destruct (stacked_transposes_rating_by_year 2025 (rev Examples.five))
    as (_ & _ & _ & H).
  split; [| split; [| split]]; try (vm_compute; reflexivity).
  destruct (H 0%nat 2023 4) as (col & hist & H1 & H2 & H3 & H4).
  - reflexivity.
  - simpl. auto.
  - exists col, hist. repeat split; assumption.
Defined.

(** ** Tokenizer *)











Lemma yearly_volumes_witness :
  sum_list (yearly_counts Examples.five) = 5 /\
  (2 = count_where (fun rv => 2024 =? review_year rv) Examples.five /\ 0 < 2).
Proof.
  destruct (yearly_volumes Examples.five) as (_ & _ & _ & _ & Hentry & Hsum).
  split; [exact Hsum |].
  apply (Hentry 2024 2). vm_compute. auto.
Defined.

(** ** Word frequencies *)


Lemma firstn_in {A : Type} (n : nat) (l : list A) (x : A) :
  In x (firstn n l) -> In x l.
Proof.
  intros H. rewrite <- (firstn_skipn n l). apply in_or_app. left. exact H.
Qed.


Lemma most_common_in (n : nat) (c : list (str * Z)) (e : str * Z) :
  In e (most_common n c) -> In e c.
Proof.
  unfold most_common. intros H. apply firstn_in in H.
  apply (proj1 (stable_sort_in _ _ _)) in H. exact H.
Qed.



(** ** Language distribution *)

Lemma lang_eqb_eq (a b : lang) : lang_eqb a b = true <-> a = b.
Proof. destruct a, b; simpl; split; intros; congruence. Qed.

Lemma sample_length (sample_positions : nat -> nat -> list nat) (df : frame) :
  (forall i, In i (sample_positions (length df) (Nat.min SAMPLE_N (length df))) ->
             (i < length df)%nat) ->
  length (sample sample_positions df)
  = length (sample_positions (length df) (Nat.min SAMPLE_N (length df))).
Proof.
  unfold sample.
  generalize (sample_positions (length df) (Nat.min SAMPLE_N (length df))).
  intros l. induction l as [| i l IH]; intros Hrange; [reflexivity |].
  simpl. rewrite length_app, IH by (intros; apply Hrange; right; assumption).
  destruct (nth_error df i) eqn:E; [reflexivity |].
  apply nth_error_None in E.
  assert (i < length df)%nat by (apply Hrange; left; reflexivity). lia.
Qed.

Section LanguageFacts.

Variable lower : str -> str.
Variable sample_positions : nat -> nat -> list nat.
Variable df : frame.

Let labels := map snd (sample_lang lower sample_positions df).

Lemma lang_counts_raw_perm :
  Permutation (lang_counts_raw lower sample_positions df)
    (map (fun l => (l, count_key lang_eqb l labels)) (unique lang_eqb labels)).
Proof. apply stable_sort_perm. Qed.

Lemma lang_labels_in (l : lang) :
  In l (lang_labels lower sample_positions df) <-> In l labels.
Proof.
  unfold lang_labels. split; intros H.
  - apply (Permutation_in _ (Permutation_map fst lang_counts_raw_perm)) in H.
    rewrite map_map in H. simpl in H. rewrite map_id in H.
    apply (proj1 (unique_in lang_eqb lang_eqb_eq _ _)) in H. exact H.
  - apply (Permutation_in _ (Permutation_sym
                               (Permutation_map fst lang_counts_raw_perm))).
    rewrite map_map. simpl. rewrite map_id.
    apply (unique_in lang_eqb lang_eqb_eq), H.
Qed.

Lemma lang_labels_nodup : NoDup (lang_labels lower sample_positions df).
Proof.
  unfold lang_labels.
  eapply Permutation_NoDup;
    [apply Permutation_sym, Permutation_map, lang_counts_raw_perm |].
  rewrite map_map. simpl. rewrite map_id.
  apply (unique_nodup lang_eqb lang_eqb_eq).
Qed.

Lemma lang_counts_sum :
  sum_list (lang_counts lower sample_positions df)
  = Z.of_nat (length (sample sample_positions df)).
Proof.
  unfold lang_counts.
  rewrite (sum_list_perm _ _ (Permutation_map snd lang_counts_raw_perm)).
  rewrite map_map. simpl.
  rewrite (sum_count_key lang_eqb lang_eqb_eq).
  - unfold labels, sample_lang. rewrite !length_map. reflexivity.
  - apply (unique_nodup lang_eqb lang_eqb_eq).
  - intros x Hx. apply (unique_in lang_eqb lang_eqb_eq), Hx.
Qed.

End LanguageFacts.

(** The language distribution has at most three entries, on distinct
    labels and in descending order of count; every count is positive and the
    counts add up to the number of sampled rows, which is min(1500, number of
    records) when the sampler returns that many valid row positions; and each
    label gets an average rating computed from at least one row, never the
    fallback 0. *)
Theorem language_distribution
  (lower : str -> str) (sample_positions : nat -> nat -> list nat) (df : frame) :
  NoDup (lang_labels lower sample_positions df) /\
  (length (lang_labels lower sample_positions df) <= 3)%nat /\
  length (lang_counts lower sample_positions df)
  = length (lang_labels lower sample_positions df) /\
  length (lang_ratings lower sample_positions df)
  = length (lang_labels lower sample_positions df) /\
  StronglySorted (fun a b => b <= a) (lang_counts lower sample_positions df) /\
  Forall (fun c => 0 < c) (lang_counts lower sample_positions df) /\
  sum_list (lang_counts lower sample_positions df)
  = Z.of_nat (length (sample sample_positions df)) /\
  Forall (fun x => exists f, x = Float f)
         (lang_ratings lower sample_positions df) /\
  ((forall i, In i (sample_positions (length df) (Nat.min SAMPLE_N (length df))) ->
              (i < length df)%nat) ->
   length (sample_positions (length df) (Nat.min SAMPLE_N (length df)))
   = Nat.min SAMPLE_N (length df) ->
   sum_list (lang_counts lower sample_positions df)
   = Z.of_nat (Nat.min SAMPLE_N (length df))).
Proof.
  split; [apply lang_labels_nodup |].
  split.
  { change 3%nat with (length [Arabic; French; English]).
    apply NoDup_incl_length; [apply lang_labels_nodup |].
    intros [] _; simpl; auto. }
  split; [unfold lang_counts, lang_labels; rewrite !length_map; reflexivity |].
  split; [unfold lang_ratings; rewrite length_map; reflexivity |].
  split.
  { unfold lang_counts, lang_counts_raw. apply sorted_map.
    apply (sort_desc_sorted snd). }
  split.
  { apply Forall_forall. intros c Hc. unfold lang_counts in Hc.
    apply in_map_iff in Hc. destruct Hc as ([l c'] & <- & Hin).
    apply (Permutation_in _ (lang_counts_raw_perm lower sample_positions df)) in Hin.
    apply in_map_iff in Hin. destruct Hin as (l' & E & Hl). injection E as -> <-.
    apply (proj1 (unique_in lang_eqb lang_eqb_eq _ _)) in Hl.
    apply (count_key_pos lang_eqb lang_eqb_eq), Hl. }
  split; [apply lang_counts_sum |].
  split.
  { apply Forall_forall. intros x Hx. unfold lang_ratings in Hx.
    apply in_map_iff in Hx. destruct Hx as (l & <- & Hl).
    apply lang_labels_in, in_map_iff in Hl.
    destruct Hl as ([i l'] & E & Hin). simpl in E. subst l'.
    destruct (map fst (filter (fun p => lang_eqb (snd p) l)
                              (sample_lang lower sample_positions df)))
      as [| id ids] eqn:Eids; [| eexists; reflexivity].
    exfalso.
    assert (Hf : In (i, l) (filter (fun p => lang_eqb (snd p) l)
                                   (sample_lang lower sample_positions df))).
    { apply filter_In. split; [exact Hin |]. apply lang_eqb_eq. reflexivity. }
    apply (in_map fst) in Hf. rewrite Eids in Hf. destruct Hf. }
  intros Hrange Hlen.
  rewrite lang_counts_sum, sample_length by exact Hrange.
  rewrite Hlen. reflexivity.
Qed.

Lemma language_distribution_witness :
  sum_list (lang_counts lower_latin1 Examples.first_rows Examples.five) = 5.
Proof.
  destruct (language_distribution lower_latin1 Examples.first_rows Examples.five)
    as (_ & _ & _ & _ & _ & _ & _ & _ & H).
  apply H.
  - intros i Hi. vm_compute in Hi.
    repeat (destruct Hi as [<- | Hi]; [simpl; lia |]). destruct Hi.
  - reflexivity.
Defined.

(** ** Date range *)

Lemma lex_leb_cons (x y : Z) (a b : list Z) :
  lex_leb (x :: a) (y :: b) = true <-> x < y \/ (x = y /\ lex_leb a b = true).
Proof.
  simpl. rewrite orb_true_iff, andb_true_iff, Z.ltb_lt, Z.eqb_eq. reflexivity.
Qed.

Lemma lex_leb_total (a : list Z) :
  forall b, length a = length b -> lex_leb a b = true \/ lex_leb b a = true.
Proof.
  induction a as [| x a IH]; intros [| y b] Hlen; try discriminate; auto.
  rewrite !lex_leb_cons. injection Hlen as Hlen.
  destruct (Z.lt_trichotomy x y) as [H | [-> | H]]; auto.
  destruct (IH b Hlen); auto.
Qed.

Lemma lex_leb_trans (a : list Z) :
  forall b c, lex_leb a b = true -> lex_leb b c = true -> lex_leb a c = true.
Proof.
  induction a as [| x a IH]; intros [| y b] [| z c]; try reflexivity;
    try discriminate.
  rewrite !lex_leb_cons.
  intros [H1 | [-> H1]] [H2 | [-> H2]].
  - left. lia.
  - left. exact H1.
  - left. exact H2.
  - right. split; [reflexivity | eapply IH; eassumption].
Qed.

Lemma ts_leb_total (a b : timestamp) : ts_leb a b = true \/ ts_leb b a = true.
Proof. apply lex_leb_total. reflexivity. Qed.

Lemma ts_leb_trans (a b c : timestamp) :
  ts_leb a b = true -> ts_leb b c = true -> ts_leb a c = true.
Proof. apply lex_leb_trans. Qed.

Section Extremum.

Variable better : timestamp -> timestamp -> bool.
Hypothesis better_total : forall a b, better a b = true \/ better b a = true.
Hypothesis better_trans :
  forall a b c, better a b = true -> better b c = true -> better a c = true.

Lemma fold_best (l : list timestamp) :
  forall m,
    let r := fold_left (fun m x => if better m x then m else x) l m in
    In r (m :: l) /\ forall x, In x (m :: l) -> better r x = true.
Proof.
  induction l as [| a l IH]; intros m; simpl.
  - split; [auto |]. intros x [<- | []].
    destruct (better_total m m); assumption.
  - destruct (IH (if better m a then m else a)) as [Hin Hbest].
    split.
    + destruct Hin as [Hin | Hin]; [| auto].
      destruct (better m a); auto.
    + assert (Hcur : better (fold_left (fun m x => if better m x then m else x) l
                               (if better m a then m else a))
                            (if better m a then m else a) = true)
        by (apply Hbest; left; reflexivity).
      intros x [<- | [<- | Hx]].
      * destruct (better m a) eqn:E; [exact Hcur |].
        eapply better_trans; [exact Hcur |].
        destruct (better_total m a); congruence.
      * destruct (better m a) eqn:E; [| exact Hcur].
        eapply better_trans; [exact Hcur | exact E].
      * apply Hbest. right. exact Hx.
Qed.

Lemma extremum_spec (l : list timestamp) :
  match extremum better l with
  | None => l = []
  | Some r => In r l /\ forall x, In x l -> better r x = true
  end.
Proof.
  destruct l as [| t l]; [reflexivity |]. simpl. apply fold_best.
Qed.

End Extremum.

Lemma dates_in (df : frame) (t : timestamp) :
  In t (dates df) <-> exists rv, In rv df /\ review_date rv = Some t.
Proof.
  induction df as [| rv df IH]; simpl.
  - split; [tauto | intros (? & [] & _)].
  - destruct (review_date rv) eqn:E; simpl; rewrite IH; split.
    + intros [<- | (rv' & H1 & H2)]; [exists rv; auto | exists rv'; auto].
    + intros (rv' & [<- | H1] & H2); [left; congruence | right; exists rv'; auto].
    + intros (rv' & H1 & H2). exists rv'. auto.
    + intros (rv' & [<- | H1] & H2); [congruence | exists rv'; auto].
Qed.

Lemma pct_nonempty (p : review -> bool) (df : frame) :
  df <> [] -> exists f, pct p df = Ok f.
Proof.
  intros Hne. unfold pct, int_truediv, total.
  destruct (Z.eqb_spec (Z.of_nat (length df)) 0) as [E | E].
  - destruct df; [contradiction | simpl in E; lia].
  - eexists. reflexivity.
Qed.

(** Null dates are skipped by the date KPIs: the minimum and the maximum
    of the date column are the earliest and the latest date that parsed, the
    minimum is not after the maximum, and they are missing exactly when no
    date parsed, in which case a non-empty table makes the run stop with a
    [ValueError] when the minimum is formatted. *)
Theorem date_range (df : frame) :
  (date_col_min df = None <-> forall rv, In rv df -> review_date rv = None) /\
  (date_col_min df = None <-> date_col_max df = None) /\
  (forall lo, date_col_min df = Some lo ->
     (exists rv, In rv df /\ review_date rv = Some lo) /\
     forall rv t, In rv df -> review_date rv = Some t -> ts_leb lo t = true) /\
  (forall hi, date_col_max df = Some hi ->
     (exists rv, In rv df /\ review_date rv = Some hi) /\
     forall rv t, In rv df -> review_date rv = Some t -> ts_leb t hi = true) /\
  (forall lo hi, date_col_min df = Some lo -> date_col_max df = Some hi ->
                 ts_leb lo hi = true) /\
  (df <> [] -> (forall rv, In rv df -> review_date rv = None) ->
   kpis df = Raise ValueError).
Proof.
  assert (Hmin := extremum_spec ts_leb ts_leb_total ts_leb_trans (dates df)).
  assert (Hmax := extremum_spec (fun a b => ts_leb b a)
                    (fun a b => ts_leb_total b a)
                    (fun a b c H1 H2 => ts_leb_trans c b a H2 H1) (dates df)).
  fold (date_col_min df) in Hmin. fold (date_col_max df) in Hmax.
  assert (Hnone : dates df = [] <-> forall rv, In rv df -> review_date rv = None).
  { split.
    - intros E rv Hin. destruct (review_date rv) as [t |] eqn:Et; [| reflexivity].
      assert (In t (dates df)) by (apply dates_in; exists rv; auto).
      rewrite E in H. destruct H.
    - intros H. destruct (dates df) as [| t l] eqn:E; [reflexivity |].
      assert (Hin : In t (dates df)) by (rewrite E; left; reflexivity).
      apply dates_in in Hin. destruct Hin as (rv & Hin & Ht).
      rewrite (H rv Hin) in Ht. discriminate. }
  assert (Hminnone : date_col_min df = None <-> dates df = []).
  { unfold date_col_min, extremum. destruct (dates df); split; congruence. }
  assert (Hmaxnone : date_col_max df = None <-> dates df = []).
  { unfold date_col_max, extremum. destruct (dates df); split; congruence. }
  split; [rewrite Hminnone; exact Hnone |].
  split; [rewrite Hminnone, Hmaxnone; reflexivity |].
  split.
  { intros lo E. rewrite E in Hmin. destruct Hmin as [Hin Hbest].
    split; [apply dates_in, Hin |].
    intros rv t Hrv Ht. apply Hbest, dates_in. exists rv. auto. }
  split.
  { intros hi E. rewrite E in Hmax. destruct Hmax as [Hin Hbest].
    split; [apply dates_in, Hin |].
    intros rv t Hrv Ht. apply Hbest, dates_in. exists rv. auto. }
  split.
  { intros lo hi El Eh. rewrite El in Hmin. rewrite Eh in Hmax.
    destruct Hmin as [_ Hbest], Hmax as [Hin _]. apply Hbest, Hin. }
  intros Hne Hnull. unfold kpis.
  destruct (pct_nonempty (fun rv => rating rv >=? 4) df Hne) as (pp & Epp).
  destruct (pct_nonempty (fun rv => rating rv <=? 2) df Hne) as (pn & Epn).
  destruct (pct_nonempty (fun rv => rating rv =? 3) df Hne) as (pu & Epu).
  unfold pct_positive, pct_negative, pct_neutral.
  rewrite Epp, Epn, Epu. simpl.
  rewrite (proj2 Hminnone (proj2 Hnone Hnull)). reflexivity.
Qed.

Lemma date_range_witness :
  kpis Examples.undated = Raise ValueError /\
  (forall lo hi, date_col_min Examples.five = Some lo ->
                 date_col_max Examples.five = Some hi -> ts_leb lo hi = true).
Proof.
  destruct (date_range Examples.undated) as (_ & _ & _ & _ & _ & Hraise).
  destruct (date_range Examples.five) as (_ & _ & _ & _ & Horder & _).
  split; [| exact Horder].
  apply Hraise; [discriminate |].
  intros rv [<- | []]. reflexivity.
Defined.

(** ** Month keys *)

Lemma app_inj_same_length {A : Type} (l1 : list A) :
  forall l2 s1 s2, length s1 = length s2 -> l1 ++ s1 = l2 ++ s2 ->
                   l1 = l2 /\ s1 = s2.
Proof.
  induction l1 as [| a l1 IH]; intros [| b l2] s1 s2 Hlen E; simpl in E.
  - auto.
  - apply (f_equal (@length A)) in E. simpl in E. rewrite length_app in E. lia.
  - apply (f_equal (@length A)) in E. simpl in E. rewrite length_app in E. lia.
  - injection E as -> E. destruct (IH _ _ _ Hlen E) as [-> ->]. auto.
Qed.

Lemma month_cases (m : Z) :
  1 <= m <= 12 ->
  m = 1 \/ m = 2 \/ m = 3 \/ m = 4 \/ m = 5 \/ m = 6 \/ m = 7 \/ m = 8
  \/ m = 9 \/ m = 10 \/ m = 11 \/ m = 12.
Proof. lia. Qed.

Lemma month_field_length (m : Z) :
  1 <= m <= 12 -> length (zfill 2 (str_of_int m)) = 2%nat.
Proof.
  intros H. apply month_cases in H.
  repeat (destruct H as [-> | H]; [reflexivity |]). subst. reflexivity.
Qed.

Lemma month_field_inj (m1 m2 : Z) :
  1 <= m1 <= 12 -> 1 <= m2 <= 12 ->
  zfill 2 (str_of_int m1) = zfill 2 (str_of_int m2) -> m1 = m2.
Proof.
  intros H1 H2. apply month_cases in H1. apply month_cases in H2.
  repeat (destruct H1 as [-> | H1]);
    repeat (destruct H2 as [-> | H2]); subst;
    vm_compute; intros E; try reflexivity; discriminate E.
Qed.

(** Two records with months in 1..12 get the same month key exactly when
    they are of the same year and month: no two months share a bucket, and
    the key is the year, a dash and the month on two digits. *)
Theorem ym_key_injective (rv1 rv2 : review) :
  1 <= review_month rv1 <= 12 -> 1 <= review_month rv2 <= 12 ->
  length (ym rv1) = (length (str_of_int (review_year rv1)) + 3)%nat /\
  (ym rv1 = ym rv2 <->
   review_year rv1 = review_year rv2 /\ review_month rv1 = review_month rv2).
Proof.
  intros H1 H2. unfold ym. split.
  - rewrite !length_app, month_field_length by exact H1. simpl. lia.
  - split.
    + intros E.
      apply app_inj_same_length in E.
      * destruct E as [Ey Em]. injection Em as Em.
        split; [apply str_of_int_inj, Ey | apply month_field_inj; assumption].
      * simpl. rewrite !month_field_length by assumption. reflexivity.
    + intros [-> ->]. reflexivity.
Qed.

Lemma ym_key_injective_witness :
  ym (Examples.row None 5 [] 2024 2 0) = lit "2024-02" /\
  ym (Examples.row None 5 [] 2024 2 0) <> ym (Examples.row None 5 [] 2024 12 0).
Proof.
  split; [reflexivity |].
  intros E.
  apply (proj2 (ym_key_injective (Examples.row None 5 [] 2024 2 0)
                  (Examples.row None 5 [] 2024 12 0)
                  ltac:(simpl; lia) ltac:(simpl; lia))) in E.
  destruct E as [_ E]. discriminate E.
Defined.

(** ** The load step, continued *)

Module LoaderMore.

Import Loader.












End LoaderMore.



(** ** Deriving the sentiment from the column as read *)



(** ** Values without a bucket *)

Lemma sum_counts_member (f : review -> Z) (ks : list Z) (df : frame) :
  NoDup ks ->
  sum_list (map (fun k => count_where (fun rv => f rv =? k) df) ks)
  = count_where (fun rv => if in_dec Z.eq_dec (f rv) ks then true else false) df.
Proof.
  intros Hnd. induction df as [| rv df IH].
  - clear. induction ks as [| a ks IH]; [reflexivity | exact IH].
  - transitivity
      (sum_list (map (fun k => (if f rv =? k then 1 else 0)
                               + count_where (fun rv => f rv =? k) df) ks)).
    { f_equal. apply map_ext. intros k. apply count_where_cons. }
    rewrite sum_list_add, IH, sum_indicator by exact Hnd.
    rewrite count_where_cons.
    destruct (in_dec Z.eq_dec (f rv) ks); reflexivity.
Qed.

Lemma star_rated_member (rv : review) :
  (if in_dec Z.eq_dec (rating rv) stars then true else false) = star_rated rv.
Proof.
  unfold star_rated.
  destruct (in_dec Z.eq_dec (rating rv) stars) as [H | H]; unfold stars in H;
    simpl in H.
  - symmetry. apply andb_true_iff. lia.
  - symmetry. apply andb_false_iff.
    destruct (1 <=? rating rv) eqn:E1; [| auto].
    destruct (rating rv <=? 5) eqn:E2; [| auto].
    exfalso. apply H.
    assert (rating rv = 1 \/ rating rv = 2 \/ rating rv = 3
            \/ rating rv = 4 \/ rating rv = 5) by lia.
    intuition.
Qed.

Lemma month_valid_member (rv : review) :
  (if in_dec Z.eq_dec (review_month rv) hm_months then true else false)
  = month_valid rv.
Proof.
  unfold month_valid.
  destruct (in_dec Z.eq_dec (review_month rv) hm_months) as [H | H];
    rewrite hm_months_in in H; symmetry.
  - apply andb_true_iff. lia.
  - apply andb_false_iff.
    destruct (1 <=? review_month rv) eqn:E1; [| auto].
    destruct (review_month rv <=? 12) eqn:E2; [| auto]. lia.
Qed.

(** Without any assumption on the ratings, the buckets of a rating
    histogram add up to the number of records rated 1 to 5: a record with
    another rating is in no bucket, so the histogram can fall short of the
    record count but never exceeds it. *)
Theorem rating_dist_counts_star_rated (sub : frame) :
  sum_list (rating_dist sub) = count_where star_rated sub /\
  sum_list (rating_dist sub) <= total sub /\
  (sum_list (rating_dist sub) = total sub
   <-> forall rv, In rv sub -> 1 <= rating rv <= 5).
Proof.
  assert (Hsum : sum_list (rating_dist sub) = count_where star_rated sub).
  { unfold rating_dist. rewrite sum_counts_member by apply stars_nodup.
    apply count_where_ext, star_rated_member. }
  assert (Hle : count_where star_rated sub <= total sub).
  { unfold count_where, total. apply inj_le, filter_length_le. }
  split; [exact Hsum |]. split; [lia |].
  rewrite Hsum. unfold count_where, total. split.
  - intros E rv Hin.
    assert (Hall : forallb star_rated sub = true).
    { apply Nat2Z.inj in E. clear - E.
      induction sub as [| a sub IH]; [reflexivity |]. simpl in *.
      destruct (star_rated a); simpl in *.
      - apply IH. lia.
      - pose proof (filter_length_le star_rated sub). lia. }
    rewrite forallb_forall in Hall. specialize (Hall rv Hin).
    unfold star_rated in Hall. apply andb_true_iff in Hall. lia.
  - intros H. f_equal. f_equal. apply forallb_filter_id.
    apply forallb_forall. intros rv Hin. specialize (H rv Hin).
    unfold star_rated. apply andb_true_iff. lia.
Qed.

Lemma rating_dist_counts_star_rated_witness :
  sum_list (rating_dist Examples.five) = total Examples.five.
Proof.
  apply (proj2 (proj2 (proj2 (rating_dist_counts_star_rated Examples.five)))).
  intros rv Hin. simpl in Hin.
  repeat (destruct Hin as [<- | Hin]; [simpl; lia |]). destruct Hin.
Defined.

(** Without any assumption on the months, the counts of the heatmap cells
    add up to the number of records whose month is in 1..12: a record with
    another month is in no cell. *)
Theorem heatmap_counts_valid_months (pow : float -> float -> float) (df : frame) :
  sum_list (map hm_v (hm_data pow df)) = count_where month_valid df /\
  sum_list (map hm_v (hm_data pow df)) <= total df.
Proof.
  assert (Hyear : forall yi yr,
             sum_list (map hm_v (year_cells pow df yi yr))
             = count_where (fun rv => review_year rv =? yr)
                           (filter month_valid df)).
  { intros yi yr. unfold year_cells. rewrite sum_flat_map.
    transitivity
      (sum_list (map (fun a => (fun mo => cell_count yr mo df) (snd a))
                     (enumerate hm_months))).
    { f_equal. apply map_ext. intros [mi mo]. apply cell_at_sum. }
    rewrite <- (map_map snd (fun mo => cell_count yr mo df)), enumerate_snd.
    unfold cell_count.
    transitivity
      (sum_list (map (fun mo => count_where (fun rv => review_month rv =? mo)
                                  (year_slice yr df)) hm_months)).
    { f_equal. apply map_ext. intros mo. apply count_where_and. }
    rewrite sum_counts_member by apply hm_months_nodup.
    rewrite (count_where_ext _ month_valid) by apply month_valid_member.
    unfold year_slice. rewrite <- !count_where_and.
    apply count_where_ext. intros rv. apply andb_comm. }
  assert (Hsum : sum_list (map hm_v (hm_data pow df)) = count_where month_valid df).
  { rewrite hm_data_unfold, sum_flat_map.
    transitivity
      (sum_list
         (map (fun a => (fun yr => count_where (fun rv => review_year rv =? yr)
                                     (filter month_valid df)) (snd a))
              (enumerate (hm_years df)))).
    { f_equal. apply map_ext. intros [yi yr]. apply Hyear. }
    rewrite <- (map_map snd (fun yr => count_where (fun rv => review_year rv =? yr)
                                         (filter month_valid df))),
      enumerate_snd.
    rewrite sum_counts; [reflexivity | apply sorted_years_nodup |].
    intros rv Hin. apply filter_In in Hin. apply sorted_years_in.
    exists rv. tauto. }
  split; [exact Hsum |].
  rewrite Hsum. unfold count_where, total. apply inj_le, filter_length_le.
Qed.

(** ** Substrings and the default language *)

Lemma marker_count_bounds (markers : list str) (t : str) :
  0 <= marker_count markers t <= Z.of_nat (length markers).
Proof.
  unfold marker_count.
  induction markers as [| m markers IH]; simpl; [lia |].
  destruct (contains t m); lia.
Qed.

Lemma marker_count_zero (markers : list str) (t : str) :
  marker_count markers t = 0 <-> forall m, In m markers -> ~ occurs m t.
Proof.
  unfold marker_count. induction markers as [| m markers IH]; simpl.
  - split; [intros _ m [] | reflexivity].
  - pose proof (marker_count_bounds markers t) as Hb. unfold marker_count in Hb.
    destruct (contains t m) eqn:E.
    + split; [lia |]. intros H. exfalso.
      apply (H m); [left; reflexivity | apply contains_occurs, E].
    + rewrite Z.add_0_l, IH. split.
      * intros H m' [<- | Hin]; [| auto].
        rewrite <- contains_occurs, E. discriminate.
      * intros H m' Hin. apply H. right. exact Hin.
Qed.

(** A marker is counted once however often it occurs, so the two marker
    counts are at most 11 and 10; and French is the default label: a text
    whose Arabic code points do not outnumber its Latin letters and whose
    lower-cased form contains none of the English markers is French, whether
    or not it contains a French marker. *)
Theorem french_is_default (lower : str -> str) (text : str) :
  0 <= marker_count fr_markers (lower text) <= 11 /\
  0 <= marker_count en_markers (lower text) <= 10 /\
  (count_class is_arabic text <= count_class is_latin text ->
   (forall m, In m en_markers -> ~ occurs m (lower text)) ->
   detect_lang lower text = French).
Proof.
  split; [apply (marker_count_bounds fr_markers) |].
  split; [apply (marker_count_bounds en_markers) |].
  intros Har Hen. apply marker_count_zero in Hen.
  pose proof (marker_count_bounds fr_markers (lower text)) as Hfr.
  unfold detect_lang. rewrite Hen.
  destruct (count_class is_arabic text >? count_class is_latin text) eqn:E;
    [lia |].
  destruct (marker_count fr_markers (lower text) >=? 0) eqn:E'; [reflexivity | lia].
Qed.

Lemma french_is_default_witness :
  detect_lang lower_latin1 [] = French.
Proof.
  apply (proj2 (proj2 (french_is_default lower_latin1 []))).
  - vm_compute. discriminate.
  - intros m Hin (pre & post & E). simpl in E.
    destruct pre; [| discriminate].
    simpl in Hin.
    repeat (destruct Hin as [<- | Hin]; [discriminate |]). destruct Hin.
Defined.
